(** * autojsons: reading, writing, updating and bulk-loading JSON files

    A shallow embedding of [autojsons/core.py] and [autojsons/exceptions.py].

    - Python exceptions are values of [exn]; a call either returns or raises
      ([result]), and every operation threads the file system ([io]).
    - The file system is a finite map from paths to nodes; a path is the list
      of its components below the root.
    - [json.dump] and [json.load] belong to the Python standard library, not
      to the package: they are the two fields of the class [JsonCodec], and
      the package functions are written over any instance of it.  A small
      concrete instance, [ref_codec], is used to run the functions on
      concrete inputs. *)

From Stdlib Require Import ZArith String Ascii List Bool Lia.
From stdpp Require Import base option list strings gmap fin_maps pretty.

Set Warnings "-register-all".

Open Scope Z_scope.
Open Scope string_scope.
Open Scope list_scope.

(** ** Exceptions *)

(** The exception classes that the package defines ([JSONError],
    [JSONFileError], [JSONValidationError]) and the built-in ones that
    [open], [pathlib] and [json] raise. *)
Inductive exn_class : Set :=
| Exception
| ValueError | TypeError | OverflowError | RuntimeError | RecursionError
| UnicodeError | UnicodeDecodeError | UnicodeEncodeError
| JSONDecodeError
| OSError | FileNotFoundError | FileExistsError
| IsADirectoryError | NotADirectoryError | PermissionError
| JSONError | JSONFileError | JSONValidationError.

#[global] Instance exn_class_eq_dec : EqDecision exn_class.
Proof. solve_decision. Defined.

(** The direct base class, as in [class JSONFileError(JSONError)]. *)
Definition base_class (c : exn_class) : option exn_class :=
  match c with
  | Exception => None
  | ValueError | TypeError | OverflowError | RuntimeError | OSError => Some Exception
  | RecursionError => Some RuntimeError
  | UnicodeError | JSONDecodeError => Some ValueError
  | UnicodeDecodeError | UnicodeEncodeError => Some UnicodeError
  | FileNotFoundError | FileExistsError | IsADirectoryError
  | NotADirectoryError | PermissionError => Some OSError
  | JSONError => Some Exception
  | JSONFileError | JSONValidationError => Some JSONError
  end.

Fixpoint issubclass_upto (depth : nat) (c d : exn_class) : bool :=
  bool_decide (c = d) ||
  match depth with
  | O => false
  | S depth' =>
      match base_class c with
      | Some b => issubclass_upto depth' b d
      | None => false
      end
  end.

(** No class above is more than three steps below [Exception]. *)
Definition issubclass (c d : exn_class) : bool := issubclass_upto 3 c d.

(** A raised exception: its class and [str(e)]. *)
Record exn : Set := PyExn { exn_type : exn_class; exn_str : string }.

Definition isinstance (e : exn) (c : exn_class) : bool :=
  issubclass (exn_type e) c.

Inductive result (A : Type) : Type :=
| Return (a : A)
| Raise (e : exn).
Arguments Return {A} a.
Arguments Raise {A} e.

(** ** Text *)

(** The double quote, and JSON text written with ['] where the text has a
    double quote. *)
Definition dquote : string := String "034" "".

Definition quoted (text : string) : string :=
  string_of_list_ascii
    (map (fun c => if Ascii.eqb c "'" then "034"%char else c)
       (list_ascii_of_string text)).

(** ** Paths and the file system *)

Abbreviation path := (list string).

Inductive node : Set :=
| Dir
| File (content : string).

#[global] Instance node_eq_dec : EqDecision node.
Proof. solve_decision. Defined.

(** The entries below the root; the root itself is always a directory.
    Permissions, symbolic links and special files are left out: a path can
    fail to open because it is missing, because it is a directory, or
    because a regular file stands where a directory has to be. *)
Abbreviation filesystem := (gmap path node).

Definition node_at (fs : filesystem) (p : path) : option node :=
  match p with
  | [] => Some Dir
  | _ => fs !! p
  end.

(** [str(path)] *)
Definition path_str (p : path) : string :=
  match p with
  | [] => "/"
  | _ => String.concat "/" ("" :: p)
  end.

(** [Path.parent]: the parent of the root is the root. *)
Definition parent (p : path) : path := removelast p.

(** [Path.name] *)
Definition name (p : path) : string := default "" (last p).

(** [str.rfind('.')], as the index counted from the end of the string:
    [Some k] when the last dot is followed by [k] characters. *)
Fixpoint rfind_dot_rev (rev_chars : list ascii) (k : nat) : option nat :=
  match rev_chars with
  | [] => None
  | c :: rest => if Ascii.eqb c "."%char then Some k else rfind_dot_rev rest (S k)
  end.

(** [Path.stem]:
    [i = name.rfind('.'); name[:i] if 0 < i < len(name) - 1 else name]. *)
Definition stem_of_name (nm : string) : string :=
  let chars := list_ascii_of_string nm in
  match rfind_dot_rev (rev chars) 0 with
  | Some k =>
      let i := (length chars - S k)%nat in
      if (0 <? i)%nat && (0 <? k)%nat
      then string_of_list_ascii (take i chars)
      else nm
  | None => nm
  end.

Definition stem (p : path) : string := stem_of_name (name p).

(** The state-and-exception monad of the package's functions. *)
Definition io (A : Type) : Type := filesystem -> filesystem * result A.

Definition io_ret {A} (a : A) : io A := fun fs => (fs, Return a).

Definition io_bind {A B} (m : io A) (k : A -> io B) : io B :=
  fun fs =>
    match m fs with
    | (fs', Return a) => k a fs'
    | (fs', Raise e) => (fs', Raise e)
    end.

Definition raise {A} (c : exn_class) (msg : string) : io A :=
  fun fs => (fs, Raise (PyExn c msg)).

Definition reraise {A} (e : exn) : io A := fun fs => (fs, Raise e).

(** [try: body  except ... as e: handler e].  What [body] did to the file
    system before it raised stays done. *)
Definition try_except {A} (body : io A) (handler : exn -> io A) : io A :=
  fun fs =>
    match body fs with
    | (fs', Return a) => (fs', Return a)
    | (fs', Raise e) => handler e fs'
    end.

Declare Scope io_scope.
Delimit Scope io_scope with io.
Notation "x <- m ;; k" := (io_bind m (fun x => k))
  (at level 100, m at next level, right associativity) : io_scope.
Notation "m ;;; k" := (io_bind m (fun _ => k))
  (at level 100, right associativity) : io_scope.
Open Scope io_scope.

(** *** pathlib and open *)

Definition Path_exists (p : path) : io bool :=
  fun fs => (fs, Return (bool_decide (is_Some (node_at fs p)))).

Definition is_regular_file (fs : filesystem) (p : path) : bool :=
  match node_at fs p with Some (File _) => true | _ => false end.

Definition Path_is_file (p : path) : io bool :=
  fun fs => (fs, Return (is_regular_file fs p)).

Definition Path_is_dir (p : path) : io bool :=
  fun fs => (fs, Return (bool_decide (node_at fs p = Some Dir))).

Definition os_error (c : exn_class) (what : string) (p : path) : exn :=
  PyExn c (what +:+ ": '" +:+ path_str p +:+ "'").

(** [Path.mkdir(parents=True, exist_ok=True)], walking down from the root:
    every missing component becomes a directory, an existing directory is
    left alone, and a regular file on the way makes the call fail
    ([NotADirectoryError] for an ancestor, [FileExistsError] for the target
    itself). *)
Fixpoint mkdir_from (here : path) (rest : list string) (target : path)
    (fs : filesystem) : filesystem * result unit :=
  match node_at fs here with
  | Some (File _) =>
      match rest with
      | [] => (fs, Raise (os_error FileExistsError "[Errno 17] File exists" target))
      | _ => (fs, Raise (os_error NotADirectoryError "[Errno 20] Not a directory" target))
      end
  | there =>
      let fs' := match there with None => <[here := Dir]> fs | _ => fs end in
      match rest with
      | [] => (fs', Return tt)
      | x :: rest' => mkdir_from (here ++ [x]) rest' target fs'
      end
  end.

Definition Path_mkdir_parents (p : path) : io unit := mkdir_from [] p p.

(** No regular file stands at [q] or above it. *)
Definition no_file_on (fs : filesystem) (q : path) : bool :=
  forallb
    (fun n => match node_at fs (take n q) with Some (File _) => false | _ => true end)
    (seq 0 (S (length q))).

(** The error for a path that does not resolve: [ENOTDIR] when a regular
    file stands where a directory has to be, [ENOENT] otherwise. *)
Definition no_such_path (fs : filesystem) (p : path) : exn :=
  if no_file_on fs (parent p)
  then os_error FileNotFoundError "[Errno 2] No such file or directory" p
  else os_error NotADirectoryError "[Errno 20] Not a directory" p.

(** [open(p, 'r', encoding='utf-8')] followed by reading the whole file. *)
Definition open_read (p : path) : io string :=
  fun fs =>
    match node_at fs p with
    | Some (File content) => (fs, Return content)
    | Some Dir => (fs, Raise (os_error IsADirectoryError "[Errno 21] Is a directory" p))
    | None => (fs, Raise (no_such_path fs p))
    end.

(** [open(p, 'w', encoding='utf-8')]: creates the file or truncates it; the
    parent has to be a directory already. *)
Definition open_write (p : path) : io unit :=
  fun fs =>
    match node_at fs p with
    | Some Dir => (fs, Raise (os_error IsADirectoryError "[Errno 21] Is a directory" p))
    | _ =>
        match node_at fs (parent p) with
        | Some Dir => (<[p := File ""]> fs, Return tt)
        | _ => (fs, Raise (no_such_path fs p))
        end
    end.

(** [Path.unlink()] *)
Definition Path_unlink (p : path) : io unit :=
  fun fs =>
    match node_at fs p with
    | Some (File _) => (delete p fs, Return tt)
    | Some Dir => (fs, Raise (os_error IsADirectoryError "[Errno 21] Is a directory" p))
    | None => (fs, Raise (no_such_path fs p))
    end.

(** The two patterns [auto] passes to [Path.glob]. *)
Inductive glob_pattern : Set :=
| star_json        (* '*.json' *)
| starstar_json.   (* '**/*.json' *)

(** [fnmatch(name, '*.json')] *)
Definition matches_star_json (nm : string) : bool :=
  bool_decide (list_ascii_of_string ".json" `suffix_of` list_ascii_of_string nm).

(** Whether [Path(d).glob(pat)] yields [q]: the name ends in [.json], and
    [q] lies directly in [d], or anywhere below [d] for the recursive
    pattern. *)
Definition glob_selects (d : path) (pat : glob_pattern) (q : path) : bool :=
  matches_star_json (name q) &&
  match pat with
  | star_json => bool_decide (q ≠ [] ∧ parent q = d)
  | starstar_json => bool_decide (d `prefix_of` q ∧ q ≠ d)
  end.

(** [Path.glob]: nothing when [d] is not a directory; otherwise the selected
    entries in the order in which the file system lists them, which is not
    sorted. *)
Definition glob_list (fs : filesystem) (d : path) (pat : glob_pattern) : list path :=
  if bool_decide (node_at fs d = Some Dir)
  then List.filter (glob_selects d pat) (map fst (map_to_list fs))
  else [].

Definition Path_glob (d : path) (pat : glob_pattern) : io (list path) :=
  fun fs => (fs, Return (glob_list fs d pat)).

(** A file system is well formed when every entry lies in a directory. *)
Definition fs_wf (fs : filesystem) : Prop :=
  map_Forall (fun p _ => p ≠ [] ∧ node_at fs (parent p) = Some Dir) fs.

(** An operation that takes well-formed file systems to well-formed ones,
    whether it returns or raises. *)
Definition keeps_wf {A} (m : io A) : Prop :=
  ∀ fs, fs_wf fs → fs_wf (m fs).1.

#[global] Instance fs_wf_dec (fs : filesystem) : Decision (fs_wf fs).
Proof. unfold fs_wf. apply _. Defined.

(** A file can be created or overwritten at [p]: [p] is not a directory, and
    its parent is a directory or can be made one. *)
Definition can_create_file (fs : filesystem) (p : path) : bool :=
  bool_decide (node_at fs p ≠ Some Dir) &&
  match node_at fs (parent p) with
  | Some Dir => true
  | Some (File _) => false
  | None => no_file_on fs (parent p)
  end.

(** The file system once [Path.mkdir] has made the missing ancestors of [p]. *)
Definition with_parents (fs : filesystem) (p : path) : filesystem :=
  if bool_decide (is_Some (node_at fs (parent p))) then fs
  else (Path_mkdir_parents (parent p) fs).1.

(** [sub in s] on strings. *)
Fixpoint contains (s sub : string) : bool :=
  String.prefix sub s ||
  match s with
  | EmptyString => false
  | String _ s' => contains s' sub
  end.

(** ** Values *)

(** A Python float: finite ones are kept as their [repr], which determines
    them. *)
Inductive pyfloat : Set :=
| FNaN | FInf | FNegInf
| FFinite (repr : string).

(** The Python values the package passes around: what [json.load] returns
    ([None], [bool], [int], [float], [str], [list], [dict] with [str] keys),
    and [VObject] for an object of any other class (a [set], a user class),
    which [json] cannot encode.  A [dict] is the list of its items in
    insertion order.  A value is a finite tree: a list that contains itself
    is not one, and what [json.dump] does with it, a [ValueError], is within
    the interface below all the same.  Tuples and keys that are not [str],
    which [json.dump] writes as arrays and as strings, are left out. *)
Inductive value : Set :=
| VNone
| VBool (b : bool)
| VInt (z : Z)
| VFloat (f : pyfloat)
| VStr (s : string)
| VList (items : list value)
| VDict (items : list (string * value))
| VObject (type_name : string).

Abbreviation dict := (list (string * value)).

(** [d.get(k)] *)
Fixpoint dict_get (k : string) (d : dict) : option value :=
  match d with
  | [] => None
  | (k', v') :: rest => if String.eqb k k' then Some v' else dict_get k rest
  end.

(** [d[k] = v]: an existing key keeps its place, a new one goes last. *)
Fixpoint dict_set (k : string) (v : value) (d : dict) : dict :=
  match d with
  | [] => [(k, v)]
  | (k', v') :: rest =>
      if String.eqb k k' then (k, v) :: rest else (k', v') :: dict_set k v rest
  end.

(** [d.update(u)]: the items of [u], in order, assigned into [d]. *)
Definition dict_update (d u : dict) : dict :=
  fold_left (fun acc kv => dict_set kv.1 kv.2 acc) u d.

(** The keys of a Python dict are pairwise distinct. *)
Definition dict_ok (d : dict) : Prop := NoDup (map fst d).


(** ** The JSON codec of the standard library *)

(** [json_dump data indent ensure_ascii] is what
    [json.dump(data, f, indent=indent, ensure_ascii=ensure_ascii)] does to a
    freshly opened text file [f]: the text that reached the file, and the
    exception that stopped it, if any.  [json.dump] writes chunk by chunk,
    so text can have been written before an exception.

    [json_load content] is [json.load(f)] on a file holding [content]. *)
Class JsonCodec : Type := {
  json_dump : value -> Z -> bool -> string * option exn;
  json_load : string -> result value
}.

Section Core.
Context {codec : JsonCodec}.

(** [json.load(f)] inside a [with open(...) as f] block. *)
Definition load_from (content : string) : io value :=
  fun fs => (fs, json_load content).

(** [json.dump(data, f, ...)] where [f] is [file_path] just opened for
    writing; the file is closed, and so flushed, on the way out of the
    [with] block whether or not an exception is on its way. *)
Definition dump_to (file_path : path) (data : value) (indent : Z)
    (ensure_ascii : bool) : io unit :=
  fun fs =>
    let (text, stopped) := json_dump data indent ensure_ascii in
    (<[file_path := File text]> fs,
     match stopped with
     | None => Return tt
     | Some e => Raise e
     end).

(** ** core.py *)

(** The [try] statement in the loop of [auto]:
    [result[json_file.stem] = json.load(f)] and its two handlers. *)
Definition auto_load (json_file : path) (result : dict) : io dict :=
  try_except
    (content <- open_read json_file;;
     parsed <- load_from content;;
     io_ret (dict_set (stem json_file) parsed result))
    (fun e =>
       if isinstance e JSONDecodeError then
         raise JSONError
           ("Error decoding JSON file " +:+ path_str json_file +:+ ": " +:+ exn_str e)
       else if isinstance e Exception then
         raise JSONFileError
           ("Error reading file " +:+ path_str json_file +:+ ": " +:+ exn_str e)
       else reraise e).

(** [for json_file in directory.glob(pattern): if json_file.is_file(): ...] *)
Fixpoint auto_loop (files : list path) (result : dict) : io dict :=
  match files with
  | [] => io_ret result
  | json_file :: rest =>
      is_file <- Path_is_file json_file;;
      if is_file : bool then
        result' <- auto_load json_file result;;
        auto_loop rest result'
      else auto_loop rest result
  end.

Definition auto (directory : path) (recursive create_if_not_exists : bool)
    : io dict :=
  there <- Path_exists directory;;
  if negb there then
    if create_if_not_exists then
      (Path_mkdir_parents directory;;;
       io_ret [])
    else raise JSONFileError ("Directory not found: " +:+ path_str directory)
  else
    let pattern := if recursive then starstar_json else star_json in
    files <- Path_glob directory pattern;;
    auto_loop files [].

Definition read (file_path : path) : io value :=
  there <- Path_exists file_path;;
  if negb there then
    raise JSONFileError ("File not found: " +:+ path_str file_path)
  else
    try_except
      (content <- open_read file_path;;
       load_from content)
      (fun e =>
         if isinstance e JSONDecodeError then
           raise JSONError
             ("Invalid JSON in file " +:+ path_str file_path +:+ ": " +:+ exn_str e)
         else if isinstance e Exception then
           raise JSONFileError
             ("Error reading file " +:+ path_str file_path +:+ ": " +:+ exn_str e)
         else reraise e).

Definition write (file_path : path) (data : value) (indent : Z)
    (ensure_ascii create_dirs : bool) : io unit :=
  parent_there <- Path_exists (parent file_path);;
  (if create_dirs && negb parent_there
   then Path_mkdir_parents (parent file_path)
   else io_ret tt);;;
  try_except
    (open_write file_path;;;
     dump_to file_path data indent ensure_ascii)
    (fun e =>
       if isinstance e TypeError || isinstance e OverflowError
          || isinstance e ValueError then
         raise JSONError ("Data is not JSON-serializable: " +:+ exn_str e)
       else if isinstance e Exception then
         raise JSONFileError
           ("Error writing to file " +:+ path_str file_path +:+ ": " +:+ exn_str e)
       else reraise e).

(** The defaults of [write]: [indent=4, ensure_ascii=False, create_dirs=True]. *)
Definition write_defaults (file_path : path) (data : value) : io unit :=
  write file_path data 4 false true.

Definition update (file_path : path) (updates : dict)
    (create_if_not_exists : bool) : io dict :=
  there <- Path_exists file_path;;
  data <-
    (if there : bool then
       data <- read file_path;;
       io_ret (match data with VDict items => items | _ => [] end)
     else if create_if_not_exists then io_ret []
     else raise JSONFileError ("File not found: " +:+ path_str file_path));;
  let data := dict_update data updates in
  write_defaults file_path (VDict data);;;
  io_ret data.

Definition delete (file_path : path) : io bool :=
  there <- Path_exists file_path;;
  if negb there then io_ret false
  else
    try_except
      (Path_unlink file_path;;;
       io_ret true)
      (fun e =>
         if isinstance e Exception then
           raise JSONFileError
             ("Error deleting file " +:+ path_str file_path +:+ ": " +:+ exn_str e)
         else reraise e).

Definition create (file_path : path) (data : value) (overwrite : bool)
    (indent : Z) (ensure_ascii : bool) : io bool :=
  there <- Path_exists file_path;;
  if there && negb overwrite then io_ret false
  else
    let data := match data with VNone => VDict [] | _ => data end in
    write file_path data indent ensure_ascii true;;;
    io_ret true.

Definition exists_ (file_path : path) : io bool :=
  there <- Path_exists file_path;;
  if negb there then io_ret false
  else
    try_except
      (content <- open_read file_path;;
       load_from content;;;
       io_ret true)
      (fun e =>
         if isinstance e JSONDecodeError || isinstance e Exception
         then io_ret false
         else reraise e).

(** The files the loop of [auto] opens, in the order it meets them:
    [[f for f in directory.glob(pattern) if f.is_file()]]. *)
Definition json_files (fs : filesystem) (directory : path) (recursive : bool)
    : list path :=
  List.filter (is_regular_file fs)
    (glob_list fs directory (if recursive then starstar_json else star_json)).

(** What [json.load] makes of the file at [q], when it is a regular file
    that parses. *)
Definition parsed_at (fs : filesystem) (q : path) : option value :=
  match node_at fs q with
  | Some (File content) =>
      match json_load content with
      | Return v => Some v
      | Raise _ => None
      end
  | _ => None
  end.

(** One turn of the loop of [auto] on a file that parses:
    [result[json_file.stem] = json.load(f)]. *)
Definition loaded (fs : filesystem) (acc : dict) (q : path) : dict :=
  match parsed_at fs q with
  | Some v => dict_set (stem q) v acc
  | None => acc
  end.

End Core.

(** ** A reference codec

    An executable instance of [JsonCodec] in the format of CPython's [json]
    module, used to run the package on concrete inputs.  Text is a string of
    bytes, UTF-8 as on disk; the parser works on the decoded code points, so
    the positions in its messages count characters.  Number literals with a
    fraction or an exponent are kept as written, which is their [repr] when
    [json.dump] wrote them. *)
Module RefCodec.

Definition code (c : ascii) : N := N_of_ascii c.
Definition chr (n : N) : ascii := ascii_of_N n.

Definition hex_digit (n : N) : ascii :=
  (if n <? 10 then chr (48 + n) else chr (87 + n))%N.

(** ['{:04x}'.format(n)] *)
Definition hex4 (n : N) : string :=
  string_of_list_ascii
    (map (fun k => hex_digit (N.land (N.shiftr n k) 15)) [12; 8; 4; 0]%N).

(** ['0x{:02x}'.format(n)] *)
Definition hex_byte (n : N) : string :=
  "0x" +:+ string_of_list_ascii [hex_digit (N.shiftr n 4); hex_digit (N.land n 15)].

(** *** UTF-8 *)

Definition utf8_encode (cp : N) : list ascii :=
  (if cp <? 128 then [chr cp]
   else if cp <? 2048 then
     [chr (192 + N.shiftr cp 6); chr (128 + N.land cp 63)]
   else if cp <? 65536 then
     [chr (224 + N.shiftr cp 12); chr (128 + N.land (N.shiftr cp 6) 63);
      chr (128 + N.land cp 63)]
   else
     [chr (240 + N.shiftr cp 18); chr (128 + N.land (N.shiftr cp 12) 63);
      chr (128 + N.land (N.shiftr cp 6) 63); chr (128 + N.land cp 63)])%N.

Definition in_range (lo hi b : N) : bool := ((lo <=? b) && (b <=? hi))%N.

Definition cont (b : N) : N := N.land b 63.

(** The [UnicodeDecodeError] for the ill-formed sequence of [len] bytes that
    starts with [b] at [pos]. *)
Definition decode_error (b : N) (pos len : nat) (why : string) : exn :=
  PyExn UnicodeDecodeError
    ("'utf-8' codec can't decode " +:+
     (match len with
      | 1%nat => "byte " +:+ hex_byte b +:+ " in position " +:+ pretty pos
      | _ => "bytes in position " +:+ pretty pos +:+ "-" +:+ pretty (pos + len - 1)%nat
      end) +:+ ": " +:+ why).

(** [bytes.decode('utf-8')]: the code points, or the [UnicodeDecodeError]
    for the first ill-formed sequence. *)
Fixpoint utf8_decode (fuel : nat) (bs : list N) (pos : nat) : list N + exn :=
  match fuel with
  | O => inl []
  | S fuel' =>
      match bs with
      | [] => inl []
      | b :: rest =>
          let continue (cp : N) (rest' : list N) (used : nat) :=
            match utf8_decode fuel' rest' (pos + used) with
            | inl cps => inl (cp :: cps)
            | inr e => inr e
            end in
          let short (len : nat) := inr (decode_error b pos len "unexpected end of data") in
          let bad (len : nat) := inr (decode_error b pos len "invalid continuation byte") in
          let tail := in_range 128 191 in
          (if b <? 128 then continue b rest 1%nat
           else if in_range 194 223 b then
             match rest with
             | [] => short 1%nat
             | b1 :: r =>
                 if tail b1
                 then continue (N.shiftl (N.land b 31) 6 + cont b1) r 2%nat
                 else bad 1%nat
             end
           else if in_range 224 239 b then
             let second :=
               in_range (if b =? 224 then 160 else 128) (if b =? 237 then 159 else 191) in
             match rest with
             | [] => short 1%nat
             | b1 :: r1 =>
                 if negb (second b1) then bad 1%nat
                 else
                   match r1 with
                   | [] => short 2%nat
                   | b2 :: r =>
                       if tail b2
                       then continue (N.shiftl (N.land b 15) 12 + N.shiftl (cont b1) 6
                                      + cont b2) r 3%nat
                       else bad 2%nat
                   end
             end
           else if in_range 240 244 b then
             let second :=
               in_range (if b =? 240 then 144 else 128) (if b =? 244 then 143 else 191) in
             match rest with
             | [] => short 1%nat
             | b1 :: r1 =>
                 if negb (second b1) then bad 1%nat
                 else
                   match r1 with
                   | [] => short 2%nat
                   | b2 :: r2 =>
                       if negb (tail b2) then bad 2%nat
                       else
                         match r2 with
                         | [] => short 3%nat
                         | b3 :: r =>
                             if tail b3
                             then continue (N.shiftl (N.land b 7) 18
                                            + N.shiftl (cont b1) 12
                                            + N.shiftl (cont b2) 6 + cont b3) r 4%nat
                             else bad 3%nat
                         end
                   end
             end
           else inr (decode_error b pos 1 "invalid start byte"))%N
      end
  end.

Definition decode_text (content : string) : list N + exn :=
  let bs := map code (list_ascii_of_string content) in
  utf8_decode (length bs) bs 0.

Definition encode_text (cps : list N) : string :=
  string_of_list_ascii (concat (map utf8_encode cps)).

(** *** Encoding: [json.JSONEncoder.iterencode] *)

(** One character of a string literal, as [encode_basestring] (and
    [encode_basestring_ascii] when [ensure_ascii]) writes it. *)
Definition escape_char (ensure_ascii : bool) (cp : N) : string :=
  (if cp =? 34 then "\" +:+ dquote
   else if cp =? 92 then "\\"
   else if cp =? 10 then "\n"
   else if cp =? 13 then "\r"
   else if cp =? 9 then "\t"
   else if cp =? 8 then "\b"
   else if cp =? 12 then "\f"
   else if cp <? 32 then "\u" +:+ hex4 cp
   else if negb ensure_ascii || (cp <? 127) then encode_text [cp]
   else if cp <? 65536 then "\u" +:+ hex4 cp
   else
     let v := cp - 65536 in
     "\u" +:+ hex4 (55296 + N.land (N.shiftr v 10) 1023)
       +:+ "\u" +:+ hex4 (56320 + N.land v 1023))%N.

Definition encode_str (ensure_ascii : bool) (s : string) : string :=
  match decode_text s with
  | inl cps => dquote +:+ String.concat "" (map (escape_char ensure_ascii) cps) +:+ dquote
  | inr _ => dquote +:+ s +:+ dquote
  end.

(** [float.__repr__], with the three constants [allow_nan=True] lets
    through. *)
Definition floatstr (f : pyfloat) : string :=
  match f with
  | FNaN => "NaN"
  | FInf => "Infinity"
  | FNegInf => "-Infinity"
  | FFinite repr => repr
  end.

Fixpoint spaces (n : nat) : string :=
  match n with
  | O => ""
  | S n' => " " +:+ spaces n'
  end.

(** ['\n' + _indent * level] *)
Fixpoint newline_indent (unit_indent : string) (level : nat) : string :=
  match level with
  | O => String "010" ""
  | S level' => newline_indent unit_indent level' +:+ unit_indent
  end.

(** The chunks written so far, and the exception that ended the encoding. *)
Definition output : Set := string * option exn.

Definition emit (text : string) (next : output) : output :=
  (text +:+ next.1, next.2).

Definition and_then (first : output) (next : output) : output :=
  match first with
  | (text, None) => emit text next
  | (text, Some e) => (text, Some e)
  end.

Definition done : output := ("", None).

Fixpoint iterencode (unit_indent : string) (ensure_ascii : bool)
    (level : nat) (o : value) {struct o} : output :=
  match o with
  | VNone => emit "null" done
  | VBool true => emit "true" done
  | VBool false => emit "false" done
  | VInt z => emit (pretty z) done
  | VFloat f => emit (floatstr f) done
  | VStr s => emit (encode_str ensure_ascii s) done
  | VList [] => emit "[]" done
  | VList items =>
      let inner := newline_indent unit_indent (S level) in
      let fix each (first : bool) (l : list value) : output :=
        match l with
        | [] => emit (newline_indent unit_indent level +:+ "]") done
        | x :: rest =>
            emit (if first then "[" +:+ inner else "," +:+ inner)
              (and_then (iterencode unit_indent ensure_ascii (S level) x)
                 (each false rest))
        end in
      each true items
  | VDict [] => emit "{}" done
  | VDict items =>
      let inner := newline_indent unit_indent (S level) in
      let fix each (first : bool) (l : list (string * value)) : output :=
        match l with
        | [] => emit (newline_indent unit_indent level +:+ "}") done
        | (k, x) :: rest =>
            emit (if first then "{" +:+ inner else "," +:+ inner)
              (emit (encode_str ensure_ascii k +:+ ": ")
                 (and_then (iterencode unit_indent ensure_ascii (S level) x)
                    (each false rest)))
        end in
      each true items
  | VObject type_name =>
      ("", Some (PyExn TypeError
                   ("Object of type " +:+ type_name +:+ " is not JSON serializable")))
  end.

Definition dump (data : value) (indent : Z) (ensure_ascii : bool) : output :=
  iterencode (spaces (Z.to_nat indent)) ensure_ascii 0 data.

(** *** Decoding: [json.JSONDecoder] *)

(** What a scanning function comes back with: a value and the input left
    after it, [StopIteration(pos)], a [JSONDecodeError] with its message and
    position, or an exhausted recursion budget. *)
Inductive scan (A : Type) : Type :=
| Found (a : A) (rest : list N) (pos : nat)
| Stop (pos : nat)
| Bad (msg : string) (pos : nat)
| TooDeep.
Arguments Found {A} a rest pos.
Arguments Stop {A} pos.
Arguments Bad {A} msg pos.
Arguments TooDeep {A}.

Definition is_ws (c : N) : bool :=
  ((c =? 32) || (c =? 9) || (c =? 10) || (c =? 13))%N.

Definition is_digit (c : N) : bool := in_range 48 57 c.

Fixpoint skip_ws (s : list N) (pos : nat) : list N * nat :=
  match s with
  | c :: rest => if is_ws c then skip_ws rest (S pos) else (s, pos)
  | [] => (s, pos)
  end.

Fixpoint span_digits (s : list N) : list N * list N :=
  match s with
  | c :: rest =>
      if is_digit c then let (ds, r) := span_digits rest in (c :: ds, r)
      else ([], s)
  | [] => ([], s)
  end.

(** [s[idx:idx + len(lit)] == lit] *)
Fixpoint starts_with (lit s : list N) : option (list N) :=
  match lit, s with
  | [], _ => Some s
  | l :: lit', c :: s' => if (l =? c)%N then starts_with lit' s' else None
  | _ :: _, [] => None
  end.

Definition codes (lit : string) : list N := map code (list_ascii_of_string lit).

(** [NUMBER_RE]: an optional minus sign and either [0] or a digit string
    that does not start with [0]; then, optionally, a dot and digits; then,
    optionally, [e] or [E], a sign and digits.  Gives the integer part, the
    fraction and exponent, and the input left. *)
Definition match_number (s : list N) : option (list N * list N * list N) :=
  let (sign, s1) :=
    match s with
    | c :: r => if (c =? 45)%N then ([c], r) else ([], s)
    | [] => ([], s)
    end in
  let int_part :=
    match s1 with
    | c :: r =>
        if (c =? 48)%N then Some ([c], r)
        else if is_digit c then let (ds, r') := span_digits r in Some (c :: ds, r')
        else None
    | [] => None
    end in
  match int_part with
  | None => None
  | Some (ds, s2) =>
      let (frac, s3) :=
        match s2 with
        | c :: r =>
            if (c =? 46)%N then
              match span_digits r with
              | ([], _) => ([], s2)
              | (fs, r') => (c :: fs, r')
              end
            else ([], s2)
        | [] => ([], s2)
        end in
      let (exp, s4) :=
        match s3 with
        | c :: r =>
            if ((c =? 101) || (c =? 69))%N then
              let (esign, r1) :=
                match r with
                | g :: r' => if ((g =? 43) || (g =? 45))%N then ([g], r') else ([], r)
                | [] => ([], r)
                end in
              match span_digits r1 with
              | ([], _) => ([], s3)
              | (es, r2) => (c :: esign ++ es, r2)
              end
            else ([], s3)
        | [] => ([], s3)
        end in
      Some (sign ++ ds, frac ++ exp, s4)
  end.

(** [int(text)] for a text that [match_number] took as integer part. *)
Definition parse_int (text : list N) : Z :=
  let digits_value :=
    fold_left (fun acc c => 10 * acc + Z.of_N (c - 48)) (List.filter is_digit text) 0 in
  match text with
  | c :: _ => if (c =? 45)%N then - digits_value else digits_value
  | [] => digits_value
  end.

Definition hex_value (c : N) : option N :=
  (if in_range 48 57 c then Some (c - 48)
   else if in_range 97 102 c then Some (c - 87)
   else if in_range 65 70 c then Some (c - 55)
   else None)%N.

Definition hex4_value (a b c d : N) : option N :=
  match hex_value a, hex_value b, hex_value c, hex_value d with
  | Some x, Some y, Some z, Some w => Some (4096 * x + 256 * y + 16 * z + w)%N
  | _, _, _, _ => None
  end.

(** [BACKSLASH]: the one-character escapes. *)
Definition unescape (c : N) : option N :=
  (if c =? 34 then Some 34 else if c =? 92 then Some 92
   else if c =? 47 then Some 47 else if c =? 98 then Some 8
   else if c =? 102 then Some 12 else if c =? 110 then Some 10
   else if c =? 114 then Some 13 else if c =? 116 then Some 9
   else None)%N.

(** [scanstring(s, end, strict=True)], entered after the opening quote,
    which stands at [start]. *)
Fixpoint scanstring (s : list N) (pos start : nat) (acc : list N)
    : scan (list N) :=
  match s with
  | [] => Bad "Unterminated string starting at" start
  | c :: r =>
      if (c =? 34)%N then Found (rev acc) r (S pos)
      else if (c =? 92)%N then
        match r with
        | [] => Bad "Unterminated string starting at" start
        | e :: r1 =>
            if (e =? 117)%N then
              match r1 with
              | h1 :: h2 :: h3 :: h4 :: (_ :: _) as r2 =>
                  match hex4_value h1 h2 h3 h4 with
                  | None => Bad "Invalid \uXXXX escape" (S pos)
                  | Some hi =>
                      let single := scanstring r2 (pos + 6) start (hi :: acc) in
                      if in_range 55296 56319 hi then
                        match r2 with
                        | b :: u :: l1 :: l2 :: l3 :: l4 :: r3 =>
                            if ((b =? 92) && (u =? 117))%N then
                              match hex4_value l1 l2 l3 l4 with
                              | Some lo =>
                                  if in_range 56320 57343 lo then
                                    scanstring r3 (pos + 12) start
                                      ((65536 + N.shiftl (hi - 55296) 10
                                        + (lo - 56320))%N :: acc)
                                  else single
                              | None => single
                              end
                            else single
                        | _ => single
                        end
                      else single
                  end
              | _ => Bad "Invalid \uXXXX escape" (S pos)
              end
            else
              match unescape e with
              | Some ch => scanstring r1 (pos + 2) start (ch :: acc)
              | None => Bad "Invalid \escape" pos
              end
        end
      else if (c <? 32)%N then Bad "Invalid control character at" pos
      else scanstring r (S pos) start (c :: acc)
  end.

(** [dict(pairs)] *)
Definition dict_of_pairs (pairs : list (string * value)) : dict :=
  dict_update [] pairs.

Definition constant {A} (lit : string) (v : A) (s : list N) (pos : nat)
    (otherwise : scan A) : scan A :=
  match starts_with (codes lit) s with
  | Some rest => Found v rest (pos + String.length lit)
  | None => otherwise
  end.

(** [scan_once], [JSONArray] and [JSONObject], the latter two as the loops
    over their items; [fuel] bounds the depth of the calls. *)
Fixpoint scan_once (fuel : nat) (s : list N) (pos : nat) : scan value :=
  match fuel with
  | O => TooDeep
  | S fuel' =>
      match s with
      | [] => Stop pos
      | c :: r =>
          if (c =? 34)%N then
            match scanstring r (S pos) pos [] with
            | Found cps r' pos' => Found (VStr (encode_text cps)) r' pos'
            | Stop p => Stop p
            | Bad msg p => Bad msg p
            | TooDeep => TooDeep
            end
          else if (c =? 123)%N then
            let (s1, p1) := skip_ws r (S pos) in
            match s1 with
            | c1 :: r1 =>
                if (c1 =? 125)%N then Found (VDict []) r1 (S p1)
                else if (c1 =? 34)%N then object_items fuel' r1 (S p1) []
                else Bad "Expecting property name enclosed in double quotes" p1
            | [] => Bad "Expecting property name enclosed in double quotes" p1
            end
          else if (c =? 91)%N then
            let (s1, p1) := skip_ws r (S pos) in
            match s1 with
            | c1 :: r1 =>
                if (c1 =? 93)%N then Found (VList []) r1 (S p1)
                else array_items fuel' s1 p1 []
            | [] => array_items fuel' s1 p1 []
            end
          else
            constant "null" VNone s pos
              (constant "true" (VBool true) s pos
                 (constant "false" (VBool false) s pos
                    match match_number s with
                    | Some (int_part, [], rest) =>
                        Found (VInt (parse_int int_part)) rest (pos + length int_part)
                    | Some (int_part, more, rest) =>
                        Found (VFloat (FFinite (encode_text (int_part ++ more))))
                          rest (pos + length int_part + length more)
                    | None =>
                        constant "NaN" (VFloat FNaN) s pos
                          (constant "Infinity" (VFloat FInf) s pos
                             (constant "-Infinity" (VFloat FNegInf) s pos
                                (Stop pos)))
                    end))
      end
  end
with array_items (fuel : nat) (s : list N) (pos : nat) (acc : list value)
    : scan value :=
  match fuel with
  | O => TooDeep
  | S fuel' =>
      match scan_once fuel' s pos with
      | Stop p => Bad "Expecting value" p
      | Bad msg p => Bad msg p
      | TooDeep => TooDeep
      | Found v r p =>
          let (r1, p1) := skip_ws r p in
          match r1 with
          | c :: r2 =>
              if (c =? 93)%N then Found (VList (rev (v :: acc))) r2 (S p1)
              else if (c =? 44)%N then
                let (r3, p3) := skip_ws r2 (S p1) in
                array_items fuel' r3 p3 (v :: acc)
              else Bad "Expecting ',' delimiter" p1
          | [] => Bad "Expecting ',' delimiter" p1
          end
      end
  end
with object_items (fuel : nat) (s : list N) (pos : nat)
    (acc : list (string * value)) : scan value :=
  match fuel with
  | O => TooDeep
  | S fuel' =>
      match scanstring s pos (pos - 1) [] with
      | Stop p => Stop p
      | Bad msg p => Bad msg p
      | TooDeep => TooDeep
      | Found key r p =>
          let (r1, p1) := skip_ws r p in
          match r1 with
          | c :: r2 =>
              if (c =? 58)%N then
                let (r3, p3) := skip_ws r2 (S p1) in
                match scan_once fuel' r3 p3 with
                | Stop p' => Bad "Expecting value" p'
                | Bad msg p' => Bad msg p'
                | TooDeep => TooDeep
                | Found v r4 p4 =>
                    let acc' := (encode_text key, v) :: acc in
                    let (r5, p5) := skip_ws r4 p4 in
                    match r5 with
                    | d :: r6 =>
                        if (d =? 125)%N then
                          Found (VDict (dict_of_pairs (rev acc'))) r6 (S p5)
                        else if (d =? 44)%N then
                          let (r7, p7) := skip_ws r6 (S p5) in
                          match r7 with
                          | q :: r8 =>
                              if (q =? 34)%N then object_items fuel' r8 (S p7) acc'
                              else Bad "Expecting property name enclosed in double quotes" p7
                          | [] => Bad "Expecting property name enclosed in double quotes" p7
                          end
                        else Bad "Expecting ',' delimiter" p5
                    | [] => Bad "Expecting ',' delimiter" p5
                    end
                end
              else Bad "Expecting ':' delimiter" p1
          | [] => Bad "Expecting ':' delimiter" p1
          end
      end
  end.

(** The line and column of [JSONDecodeError]: [lineno] and [colno]. *)
Fixpoint line_col (doc : list N) (pos : nat) (line col : nat) : nat * nat :=
  match pos, doc with
  | S pos', c :: rest =>
      if (c =? 10)%N then line_col rest pos' (S line) 1%nat
      else line_col rest pos' line (S col)
  | _, _ => (line, col)
  end.

Definition JSONDecodeError_at (msg : string) (doc : list N) (pos : nat) : exn :=
  let (line, col) := line_col doc pos 1 1 in
  PyExn JSONDecodeError
    (msg +:+ ": line " +:+ pretty line +:+ " column " +:+ pretty col
       +:+ " (char " +:+ pretty pos +:+ ")").

(** [json.loads(doc)] *)
Definition loads (doc : list N) : result value :=
  match doc with
  | 65279%N :: _ =>
      Raise (JSONDecodeError_at "Unexpected UTF-8 BOM (decode using utf-8-sig)" doc 0)
  | _ =>
      let (s0, p0) := skip_ws doc 0 in
      match scan_once (2 * length doc + 2) s0 p0 with
      | Stop p => Raise (JSONDecodeError_at "Expecting value" doc p)
      | Bad msg p => Raise (JSONDecodeError_at msg doc p)
      | TooDeep =>
          Raise (PyExn RecursionError "maximum recursion depth exceeded")
      | Found v r p =>
          match skip_ws r p with
          | ([], _) => Return v
          | (_ :: _, p1) => Raise (JSONDecodeError_at "Extra data" doc p1)
          end
      end
  end.

(** [json.load(f)]: [json.loads(f.read())] on a file opened as UTF-8. *)
Definition load (content : string) : result value :=
  match decode_text content with
  | inr e => Raise e
  | inl doc => loads doc
  end.

End RefCodec.

#[global] Instance ref_codec : JsonCodec :=
  {| json_dump := RefCodec.dump; json_load := RefCodec.load |}.

(** ** Example file systems *)

(** A directory [/data] holding [a.json] and [sub/b.json]. *)
Definition fs_data : filesystem :=
  {[ ["data"] := Dir;
     ["data"; "a.json"] := File (quoted "{'x':1}");
     ["data"; "sub"] := Dir;
     ["data"; "sub"; "b.json"] := File (quoted "{'y':2}") ]}.

(** A file [/conf.json] holding a mapping, one holding a list, and one
    holding text that is not JSON. *)
Definition fs_conf : filesystem :=
  {[ ["conf.json"] := File (quoted "{'a': 1, 'b': 2}");
     ["list.json"] := File "[1, 2, 3]";
     ["broken.json"] := File "not json" ]}.


(** * Properties *)

(** ** Exceptions and the monad *)

Lemma isinstance_Exception (e : exn) : isinstance e Exception = true.
Proof. destruct e as [[] msg]; reflexivity. Qed.

Lemma JSONDecodeError_is_ValueError (e : exn) :
  isinstance e JSONDecodeError = true → isinstance e ValueError = true.
Proof. destruct e as [[] msg]; vm_compute; congruence. Qed.

Lemma prefix_app (a b : string) : String.prefix a (a +:+ b) = true.
Proof.
  induction a as [|c a IH].
  - by destruct b.
  - change (String c a +:+ b) with (String c (a +:+ b)). cbn [String.prefix].
    destruct (ascii_dec c c); [done | congruence].
Qed.

Lemma str_app_assoc (a b c : string) : (a +:+ b) +:+ c = a +:+ b +:+ c.
Proof.
  induction a as [|x a IH]; [done|].
  change (String x (a +:+ b) +:+ c = String x (a +:+ b +:+ c)).
  change (String x ((a +:+ b) +:+ c) = String x (a +:+ b +:+ c)). by rewrite IH.
Qed.

Lemma str_app_nil_r (a : string) : a +:+ "" = a.
Proof.
  induction a as [|x a IH]; [done|].
  change (String x (a +:+ "") = String x a). by rewrite IH.
Qed.

Lemma contains_app (pre sub post : string) :
  contains (pre +:+ sub +:+ post) sub = true.
Proof.
  induction pre as [|c pre IH].
  - change ("" +:+ sub +:+ post) with (sub +:+ post).
    pose proof (prefix_app sub post) as H.
    destruct (sub +:+ post); cbn [contains]; by rewrite H.
  - change (String c pre +:+ sub +:+ post) with (String c (pre +:+ sub +:+ post)).
    cbn [contains]. rewrite IH. apply orb_true_r.
Qed.

Lemma contains_end (pre sub : string) : contains (pre +:+ sub) sub = true.
Proof. rewrite <- (str_app_nil_r sub) at 1. apply contains_app. Qed.

(** ** Paths *)

Lemma parent_snoc (q : path) (x : string) : parent (q ++ [x]) = q.
Proof. unfold parent. apply removelast_last. Qed.

Lemma node_at_nonroot (fs : filesystem) (p : path) :
  p ≠ [] → node_at fs p = fs !! p.
Proof. by destruct p. Qed.

Lemma node_at_insert_eq (fs : filesystem) (p : path) (n : node) :
  p ≠ [] → node_at (<[p := n]> fs) p = Some n.
Proof. intros Hp. rewrite node_at_nonroot by done. apply lookup_insert_eq. Qed.

Lemma node_at_insert_ne (fs : filesystem) (p q : path) (n : node) :
  p ≠ q → node_at (<[p := n]> fs) q = node_at fs q.
Proof. intros Hp. destruct q; [done|]. simpl. by apply lookup_insert_ne. Qed.

Lemma file_not_root (fs : filesystem) (p : path) (content : string) :
  node_at fs p = Some (File content) → p ≠ [].
Proof. by intros H ->. Qed.

Lemma fs_wf_parent (fs : filesystem) (p : path) (n : node) :
  fs_wf fs → p ≠ [] → node_at fs p = Some n → node_at fs (parent p) = Some Dir.
Proof.
  intros Hwf Hp Hn. rewrite node_at_nonroot in Hn by done.
  by destruct (Hwf p n Hn).
Qed.

Lemma list_ascii_of_app (a b : string) :
  list_ascii_of_string (a +:+ b) = list_ascii_of_string a ++ list_ascii_of_string b.
Proof.
  induction a as [|c a IH]; [done|].
  change (String c a +:+ b) with (String c (a +:+ b)).
  cbn [list_ascii_of_string]. by rewrite IH.
Qed.

(** [fnmatch(nm, '*.json')] holds exactly of the names that end in [.json]. *)
Lemma matches_star_json_spec (nm : string) :
  matches_star_json nm = true ↔ ∃ pre, nm = pre +:+ ".json".
Proof.
  unfold matches_star_json. rewrite bool_decide_eq_true. split.
  - intros [k Hk]. exists (string_of_list_ascii k).
    rewrite <- (string_of_list_ascii_of_string nm), Hk.
    rewrite <- (string_of_list_ascii_of_string (string_of_list_ascii k +:+ ".json")).
    by rewrite list_ascii_of_app, list_ascii_of_string_of_list_ascii.
  - intros [pre ->]. exists (list_ascii_of_string pre). apply list_ascii_of_app.
Qed.

(** The stem of [<pre>.json] is [pre], the name without its extension, as
    long as [pre] is not empty; the stem of [.json] is [.json]. *)
Lemma stem_of_json_name (pre : string) :
  stem_of_name (pre +:+ ".json") = if String.eqb pre "" then ".json" else pre.
Proof.
  unfold stem_of_name. rewrite list_ascii_of_app, rev_app_distr.
  cbn [list_ascii_of_string rev app rfind_dot_rev Ascii.eqb Bool.eqb].
  rewrite length_app. cbn [length].
  replace (length (list_ascii_of_string pre) + 5 - 5)%nat
    with (length (list_ascii_of_string pre)) by lia.
  destruct pre as [|c pre]; [done|].
  cbn [list_ascii_of_string length Nat.ltb Nat.leb andb String.eqb].
  change (c :: list_ascii_of_string pre) with (list_ascii_of_string (String c pre)).
  replace (S (length (list_ascii_of_string pre)))
    with (length (list_ascii_of_string (String c pre))) by done.
  rewrite take_app_length. apply string_of_list_ascii_of_string.
Qed.

(** ** Path.mkdir *)

Lemma make_here (fs : filesystem) (here : path) :
  (∀ c, node_at fs here ≠ Some (File c)) →
  let fs' := match node_at fs here with None => <[here := Dir]> fs | _ => fs end in
  node_at fs' here = Some Dir ∧
  (∀ q, q ≠ here → fs' !! q = fs !! q) ∧
  (∀ q nd, node_at fs q = Some nd → node_at fs' q = Some nd).
Proof.
  intros Hnf. destruct (node_at fs here) as [[|c]|] eqn:E; cbn zeta.
  - done.
  - by destruct (Hnf c).
  - assert (here ≠ []) as Hne by (intros ->; discriminate).
    split; [by apply node_at_insert_eq|]. split.
    + intros q Hq. by apply lookup_insert_ne.
    + intros q nd Hq. rewrite node_at_insert_ne; [done|]. congruence.
Qed.

Lemma mkdir_from_ok (rest : list string) :
  ∀ (here target : path) (fs : filesystem),
    (∀ n c, (n ≤ length rest)%nat → node_at fs (here ++ take n rest) ≠ Some (File c)) →
    ∃ fs', mkdir_from here rest target fs = (fs', Return tt) ∧
      (∀ n, (n ≤ length rest)%nat → node_at fs' (here ++ take n rest) = Some Dir) ∧
      (∀ q, (∀ n, (n ≤ length rest)%nat → q ≠ here ++ take n rest) → fs' !! q = fs !! q) ∧
      (∀ q nd, node_at fs q = Some nd → node_at fs' q = Some nd).
Proof.
  induction rest as [|x rest IH]; intros here target fs Hnf.
  - assert (∀ c, node_at fs here ≠ Some (File c)) as Hh.
    { intros c. specialize (Hnf 0%nat c). rewrite app_nil_r in Hnf. apply Hnf. simpl; lia. }
    destruct (make_here fs here Hh) as (Hd & Hframe & Hkeep).
    cbn [mkdir_from].
    destruct (node_at fs here) as [[|c]|] eqn:E; [| by destruct (Hh c) |];
      (eexists; split; [reflexivity|]; split; [|split]).
    + intros n _. rewrite take_nil, app_nil_r. done.
    + done.
    + done.
    + intros n _. rewrite take_nil, app_nil_r. done.
    + intros q Hq. apply Hframe. specialize (Hq 0%nat). rewrite app_nil_r in Hq.
      apply Hq. simpl; lia.
    + done.
  - assert (∀ c, node_at fs here ≠ Some (File c)) as Hh.
    { intros c. specialize (Hnf 0%nat c). rewrite app_nil_r in Hnf. apply Hnf. simpl; lia. }
    destruct (make_here fs here Hh) as (Hd & Hframe & Hkeep).
    set (fs1 := match node_at fs here with None => <[here := Dir]> fs | _ => fs end) in *.
    assert (mkdir_from here (x :: rest) target fs
            = mkdir_from (here ++ [x]) rest target fs1) as ->.
    { cbn [mkdir_from]. subst fs1.
      destruct (node_at fs here) as [[|c]|]; [done | by destruct (Hh c) | done]. }
    destruct (IH (here ++ [x]) target fs1) as (fs' & Hrun & Hdirs & Hfr & Hk).
    { intros n c Hn. rewrite <- app_assoc. change ([x] ++ take n rest) with (take (S n) (x :: rest)).
      assert (here ++ take (S n) (x :: rest) ≠ here) as Hne.
      { intros Heq. apply (f_equal length) in Heq. rewrite length_app in Heq. simpl in Heq. lia. }
      destruct (here ++ take (S n) (x :: rest)) as [|y q] eqn:Eq.
      { destruct here; discriminate. }
      cbn [node_at]. rewrite Hframe by done. rewrite <- Eq.
      specialize (Hnf (S n) c). rewrite node_at_nonroot in Hnf by (rewrite Eq; done).
      apply Hnf. simpl; lia. }
    exists fs'. split; [done|]. split; [|split].
    + intros [|n] Hn.
      * rewrite app_nil_r. apply Hk. done.
      * specialize (Hdirs n). rewrite <- app_assoc in Hdirs. apply Hdirs. simpl in Hn; lia.
    + intros q Hq. rewrite Hfr.
      * apply Hframe. specialize (Hq 0%nat). rewrite app_nil_r in Hq. apply Hq. simpl; lia.
      * intros n Hn. rewrite <- app_assoc. apply (Hq (S n)). simpl; lia.
    + intros q nd Hq. apply Hk, Hkeep, Hq.
Qed.

Lemma no_file_on_spec (fs : filesystem) (q : path) :
  no_file_on fs q = true →
  ∀ n c, (n ≤ length q)%nat → node_at fs (take n q) ≠ Some (File c).
Proof.
  unfold no_file_on. rewrite forallb_forall. intros H n c Hn Hf.
  specialize (H n). rewrite Hf in H. discriminate H.
  apply in_seq. lia.
Qed.

(** [Path.mkdir(parents=True, exist_ok=True)] succeeds when no regular file
    is in the way: the target and all its ancestors are directories
    afterwards, and nothing else changes. *)
Lemma Path_mkdir_parents_ok (fs : filesystem) (d : path) :
  no_file_on fs d = true →
  ∃ fs', Path_mkdir_parents d fs = (fs', Return tt) ∧
    (∀ q, q `prefix_of` d → node_at fs' q = Some Dir) ∧
    (∀ q, ¬ q `prefix_of` d → fs' !! q = fs !! q) ∧
    (∀ q nd, node_at fs q = Some nd → node_at fs' q = Some nd).
Proof.
  intros Hnf. unfold Path_mkdir_parents.
  destruct (mkdir_from_ok d [] d fs) as (fs' & Hrun & Hdirs & Hfr & Hk).
  { intros n c Hn. simpl. by apply no_file_on_spec. }
  exists fs'. split; [done|]. split; [|split].
  - intros q [k ->]. specialize (Hdirs (length q)). simpl in Hdirs.
    rewrite take_app_length in Hdirs. apply Hdirs. rewrite length_app. lia.
  - intros q Hq. apply Hfr. intros n Hn ->. apply Hq. simpl.
    exists (drop n d). by rewrite take_drop.
  - done.
Qed.

Lemma mkdir_from_blocked (rest : list string) :
  ∀ (here target : path) (fs : filesystem) (n : nat) (c : string),
    (n ≤ length rest)%nat →
    node_at fs (here ++ take n rest) = Some (File c) →
    ∃ fs' e, mkdir_from here rest target fs = (fs', Raise e) ∧
             isinstance e OSError = true.
Proof.
  induction rest as [|x rest IH]; intros here target fs n c Hn Hfile; cbn [mkdir_from].
  - rewrite take_nil, app_nil_r in Hfile. rewrite Hfile. by eexists _, _.
  - destruct (node_at fs here) as [[|c']|] eqn:E; [| by eexists _, _ |].
    + destruct n as [|n]; [rewrite app_nil_r in Hfile; congruence|].
      apply (IH (here ++ [x]) target fs n c); [simpl in Hn; lia|].
      by rewrite <- app_assoc.
    + destruct n as [|n]; [rewrite app_nil_r in Hfile; congruence|].
      apply (IH (here ++ [x]) target _ n c); [simpl in Hn; lia|].
      rewrite <- app_assoc. rewrite node_at_insert_ne; [done|].
      intros Heq. apply (f_equal length) in Heq. rewrite length_app in Heq.
      simpl in Heq. lia.
Qed.

Lemma no_file_on_false (fs : filesystem) (q : path) :
  no_file_on fs q = false →
  ∃ n c, (n ≤ length q)%nat ∧ node_at fs (take n q) = Some (File c).
Proof.
  unfold no_file_on. intros H.
  assert (∃ n, In n (seq 0 (S (length q))) ∧
               match node_at fs (take n q) with Some (File _) => false | _ => true end
               = false) as (n & Hin & Hn).
  { induction (seq 0 (S (length q))) as [|k l IH]; [done|].
    cbn [forallb] in H. apply andb_false_iff in H as [H|H].
    - exists k. split; [by left | done].
    - destruct (IH H) as (n & Hin & Hn). exists n. split; [by right | done]. }
  apply in_seq in Hin.
  destruct (node_at fs (take n q)) as [[|c]|] eqn:E; try done.
  exists n, c. split; [lia | done].
Qed.

(** [Path.mkdir(parents=True, exist_ok=True)] raises an [OSError] when a
    regular file is in the way. *)
Lemma Path_mkdir_parents_blocked (fs : filesystem) (d : path) :
  no_file_on fs d = false →
  ∃ fs' e, Path_mkdir_parents d fs = (fs', Raise e) ∧ isinstance e OSError = true.
Proof.
  intros H. destruct (no_file_on_false fs d H) as (n & c & Hn & Hfile).
  by apply (mkdir_from_blocked d [] d fs n c).
Qed.

Lemma not_prefix_of_parent (p : path) : p ≠ [] → ¬ p `prefix_of` parent p.
Proof.
  intros Hp Hpre. destruct (exists_last Hp) as (q & x & ->).
  rewrite parent_snoc in Hpre. apply prefix_length in Hpre.
  rewrite length_app in Hpre. simpl in Hpre. lia.
Qed.

Lemma can_create_file_spec (fs : filesystem) (p : path) :
  can_create_file fs p = true →
  p ≠ [] ∧ node_at (with_parents fs p) p = node_at fs p ∧
  node_at fs p ≠ Some Dir ∧
  node_at (with_parents fs p) (parent p) = Some Dir ∧
  (∀ q nd, node_at fs q = Some nd → node_at (with_parents fs p) q = Some nd) ∧
  ((if bool_decide (is_Some (node_at fs (parent p)))
    then io_ret tt else Path_mkdir_parents (parent p)) fs
   = (with_parents fs p, Return tt)).
Proof.
  unfold can_create_file, with_parents. intros H.
  apply andb_true_iff in H as [Hp Hpar]. apply bool_decide_eq_true in Hp.
  assert (p ≠ []) as Hne by (intros ->; by apply Hp).
  split; [done|].
  destruct (node_at fs (parent p)) as [[|c]|] eqn:E; [| done |].
  - rewrite bool_decide_eq_true_2 by eauto. done.
  - rewrite bool_decide_eq_false_2 by (intros [? ?]; done).
    destruct (Path_mkdir_parents_ok fs (parent p) Hpar) as (fs' & -> & Hdirs & Hfr & Hk).
    cbn [fst]. split; [|split; [done|split; [|done]]].
    + rewrite !node_at_nonroot by done. apply Hfr. by apply not_prefix_of_parent.
    + by apply Hdirs.
Qed.

(** [open] for writing either raises, leaving the file system alone, or
    leaves an empty file at a path that is not the root. *)
Lemma open_write_returns (p : path) (fs : filesystem) :
  (∃ e, open_write p fs = (fs, Raise e)) ∨
  (p ≠ [] ∧ open_write p fs = (<[p := File ""]> fs, Return tt)).
Proof.
  unfold open_write. destruct p as [|x p]; [left; by eexists|]. cbn [node_at].
  destruct (fs !! (x :: p)) as [[|c]|]; [left; by eexists | |];
    (destruct (node_at fs (parent (x :: p))) as [[|c']|];
       [right; by split | left; by eexists ..]).
Qed.

(** ** Well-formed file systems *)

Lemma parent_ne (p : path) : p ≠ [] → parent p ≠ p.
Proof.
  intros Hp Heq. destruct (exists_last Hp) as (q & x & ->).
  rewrite parent_snoc in Heq. apply (f_equal length) in Heq.
  rewrite length_app in Heq. simpl in Heq. lia.
Qed.

Lemma fs_wf_insert (fs : filesystem) (p : path) (n : node) :
  fs_wf fs → p ≠ [] → node_at fs (parent p) = Some Dir →
  n = Dir ∨ node_at fs p ≠ Some Dir →
  fs_wf (<[p := n]> fs).
Proof.
  intros Hwf Hp Hpar Hn q m Hq.
  destruct (decide (q = p)) as [->|Hne].
  - split; [done|]. rewrite node_at_insert_ne by (by apply not_eq_sym, parent_ne). done.
  - rewrite lookup_insert_ne in Hq by done. destruct (Hwf q m Hq) as [Hq0 Hqp].
    split; [done|]. destruct (decide (parent q = p)) as [Heq|Hpq].
    + rewrite Heq in *. rewrite node_at_insert_eq by done.
      destruct Hn as [->|Hn]; [done | by destruct Hn].
    + rewrite node_at_insert_ne by done. done.
Qed.

Lemma fs_wf_delete_file (fs : filesystem) (p : path) (content : string) :
  fs_wf fs → node_at fs p = Some (File content) → fs_wf (base.delete p fs).
Proof.
  intros Hwf Hp q m Hq.
  destruct (decide (q = p)) as [->|Hne]; [by rewrite lookup_delete_eq in Hq|].
  rewrite lookup_delete_ne in Hq by done. destruct (Hwf q m Hq) as [Hq0 Hqp].
  split; [done|]. destruct (parent q) as [|x r] eqn:E; [done|]. cbn [node_at] in *.
  rewrite lookup_delete_ne; [done|]. intros ->. cbn [node_at] in Hp. congruence.
Qed.

Lemma keeps_wf_pure {A} (m : io A) : (∀ fs, (m fs).1 = fs) → keeps_wf m.
Proof. intros H fs Hwf. by rewrite H. Qed.

Lemma keeps_wf_bind {A B} (m : io A) (k : A → io B) :
  keeps_wf m → (∀ a, keeps_wf (k a)) → keeps_wf (io_bind m k).
Proof.
  intros Hm Hk fs Hwf. unfold io_bind. specialize (Hm fs Hwf).
  destruct (m fs) as [fs' [a|e]]; [by apply Hk | done].
Qed.

Lemma keeps_wf_try {A} (body : io A) (handler : exn → io A) :
  keeps_wf body → (∀ e, keeps_wf (handler e)) → keeps_wf (try_except body handler).
Proof.
  intros Hm Hk fs Hwf. unfold try_except. specialize (Hm fs Hwf).
  destruct (body fs) as [fs' [a|e]]; [done | by apply Hk].
Qed.

Lemma keeps_wf_mkdir_from (rest : list string) :
  ∀ (here target : path) (fs : filesystem),
    fs_wf fs → here = [] ∨ node_at fs (parent here) = Some Dir →
    fs_wf (mkdir_from here rest target fs).1.
Proof.
  induction rest as [|x rest IH]; intros here target fs Hwf Hhere; cbn [mkdir_from].
  - destruct (node_at fs here) as [[|c]|] eqn:E; [done..|]. cbn [fst].
    destruct Hhere as [->|Hpar]; [done|].
    apply fs_wf_insert; [done | by intros -> | done | by left].
  - destruct (node_at fs here) as [[|c]|] eqn:E; [|done|].
    + apply IH; [done|]. right. by rewrite parent_snoc.
    + destruct Hhere as [->|Hpar]; [done|].
      assert (here ≠ []) as Hne by (by intros ->).
      apply IH.
      * apply fs_wf_insert; [done | done | done | by left].
      * right. rewrite parent_snoc. by apply node_at_insert_eq.
Qed.

Lemma keeps_wf_mkdir (p : path) : keeps_wf (Path_mkdir_parents p).
Proof. intros fs Hwf. apply keeps_wf_mkdir_from; [done | by left]. Qed.

Lemma keeps_wf_unlink (p : path) : keeps_wf (Path_unlink p).
Proof.
  intros fs Hwf. unfold Path_unlink.
  destruct (node_at fs p) as [[|c]|] eqn:E; [done | | done].
  by apply (fs_wf_delete_file fs p c).
Qed.

(** ** Dicts *)

Lemma dict_get_set (k k' : string) (v : value) (d : dict) :
  dict_get k (dict_set k' v d) = if String.eqb k k' then Some v else dict_get k d.
Proof.
  induction d as [|[k0 v0] d IH]; cbn [dict_set dict_get].
  - done.
  - destruct (String.eqb k' k0) eqn:E0; cbn [dict_get].
    + apply String.eqb_eq in E0 as ->. by destruct (String.eqb k k0).
    + rewrite IH. destruct (String.eqb k k0) eqn:E1; [|done].
      apply String.eqb_eq in E1 as ->.
      rewrite String.eqb_sym in E0. by rewrite E0.
Qed.

Lemma dict_get_None (k : string) (d : dict) :
  k ∉ map fst d → dict_get k d = None.
Proof.
  induction d as [|[k0 v0] d IH]; cbn [dict_get map fst]; [done|].
  intros Hk. apply not_elem_of_cons in Hk as [Hne Hk].
  destruct (String.eqb k k0) eqn:E; [|by apply IH].
  by apply String.eqb_eq in E.
Qed.

(** [d.update(u)] is a shallow merge: a key of [u] gets the value [u] has
    for it, whatever [d] had there, and every other key keeps its value. *)
Lemma dict_get_update (k : string) (u : dict) :
  dict_ok u →
  ∀ d, dict_get k (dict_update d u)
       = match dict_get k u with Some v => Some v | None => dict_get k d end.
Proof.
  unfold dict_ok, dict_update.
  induction u as [|[k1 v1] u IH]; intros Hnd d; cbn [fold_left dict_get]; [done|].
  cbn [map fst] in Hnd. apply NoDup_cons in Hnd as [Hk1 Hnd].
  rewrite IH by done. cbn [fst snd].
  destruct (String.eqb k k1) eqn:E.
  - apply String.eqb_eq in E as ->. rewrite dict_get_None by done.
    by rewrite dict_get_set, String.eqb_refl.
  - rewrite dict_get_set, E. done.
Qed.




Section Properties.
Context {codec : JsonCodec}.

(** ** read *)

Lemma read_file (fs : filesystem) (p : path) (content : string) :
  node_at fs p = Some (File content) →
  read p fs =
    (fs,
     match json_load content with
     | Return v => Return v
     | Raise e =>
         if isinstance e JSONDecodeError then
           Raise (PyExn JSONError
                    ("Invalid JSON in file " +:+ path_str p +:+ ": " +:+ exn_str e))
         else
           Raise (PyExn JSONFileError
                    ("Error reading file " +:+ path_str p +:+ ": " +:+ exn_str e))
     end).
Proof.
  intros Hp. unfold read, io_bind, Path_exists.
  rewrite bool_decide_eq_true_2 by (rewrite Hp; eauto). cbn [negb].
  unfold try_except, io_bind, open_read, load_from. rewrite Hp.
  destruct (json_load content) as [v|e]; [done|].
  destruct (isinstance e JSONDecodeError); [done|].
  by rewrite isinstance_Exception.
Qed.

(** ** write *)

(** What [write] does at a path where a file can be created: the missing
    ancestors are made, the file holds whatever [json.dump] got to write,
    and an exception of [json.dump] comes out translated. *)
Lemma write_at (fs : filesystem) (p : path) (data : value) (indent : Z)
    (ensure_ascii : bool) :
  can_create_file fs p = true →
  write p data indent ensure_ascii true fs =
    (<[p := File (json_dump data indent ensure_ascii).1]> (with_parents fs p),
     match (json_dump data indent ensure_ascii).2 with
     | None => Return tt
     | Some e =>
         if isinstance e TypeError || isinstance e OverflowError
            || isinstance e ValueError then
           Raise (PyExn JSONError ("Data is not JSON-serializable: " +:+ exn_str e))
         else
           Raise (PyExn JSONFileError
                    ("Error writing to file " +:+ path_str p +:+ ": " +:+ exn_str e))
     end).
Proof.
  intros Hc. destruct (can_create_file_spec fs p Hc) as (Hne & Hsame & Hnd & Hpar & _ & Hmk).
  unfold write. unfold io_bind at 1. unfold Path_exists at 1. cbn [andb].
  set (there := bool_decide (is_Some (node_at fs (parent p)))) in *.
  unfold io_bind at 1.
  replace (if negb there then Path_mkdir_parents (parent p) else io_ret tt)
    with (if there then io_ret tt else Path_mkdir_parents (parent p))
    by (by destruct there).
  rewrite Hmk.
  unfold try_except, io_bind, open_write, dump_to.
  assert (node_at (with_parents fs p) p ≠ Some Dir) as Hnd' by (by rewrite Hsame).
  rewrite Hpar.
  destruct (json_dump data indent ensure_ascii) as [text stopped]. cbn [fst snd].
  destruct (node_at (with_parents fs p) p) as [[|c]|]; [done | |];
    rewrite insert_insert_eq;
    (destruct stopped as [e|]; [|done]);
    (destruct (isinstance e TypeError || isinstance e OverflowError
               || isinstance e ValueError); [done|]);
    by rewrite isinstance_Exception.
Qed.

(** C1, as amended.  At a path where a file can be created, [write] makes
    or truncates the file and lets [json.dump] write into it.  When
    [json.dump] stops with a [TypeError], [OverflowError] or [ValueError]
    (an object of a class it cannot encode, a circular reference), [write]
    raises the base [JSONError] with the message "Data is not
    JSON-serializable: ...", and the file holds what was written before the
    exception.  When [json.dump] completes, as it does for the non-finite
    floats, [write] returns and the file holds the text. *)
Theorem write_serialization_outcome (fs : filesystem) (p : path) (data : value)
    (indent : Z) (ensure_ascii : bool) (text : string) (stopped : option exn) :
  can_create_file fs p = true →
  json_dump data indent ensure_ascii = (text, stopped) →
  match stopped with
  | Some e =>
      isinstance e TypeError || isinstance e OverflowError
        || isinstance e ValueError = true →
      write p data indent ensure_ascii true fs =
        (<[p := File text]> (with_parents fs p),
         Raise (PyExn JSONError ("Data is not JSON-serializable: " +:+ exn_str e)))
  | None =>
      write p data indent ensure_ascii true fs =
        (<[p := File text]> (with_parents fs p), Return tt)
  end.
Proof.
  intros Hc Hd. rewrite (write_at fs p data indent ensure_ascii Hc), Hd. cbn [fst snd].
  destruct stopped as [e|]; [|done]. by intros ->.
Qed.

(** C2, as amended.  When [p] is a regular file and [json.load] rejects its
    content with a [JSONDecodeError], [read] raises an exception of class
    [JSONError] itself, the base kind, which is neither a
    [JSONValidationError] nor a [JSONFileError]; its message is "Invalid
    JSON in file <p>: <detail>", so it contains the path and the decoder's
    own message.  The file system is left as it was. *)
Theorem read_invalid_json (fs : filesystem) (p : path) (content : string)
    (e0 : exn) :
  node_at fs p = Some (File content) →
  json_load content = Raise e0 →
  isinstance e0 JSONDecodeError = true →
  ∃ e, read p fs = (fs, Raise e) ∧
       exn_type e = JSONError ∧
       isinstance e JSONValidationError = false ∧
       isinstance e JSONFileError = false ∧
       exn_str e = "Invalid JSON in file " +:+ path_str p +:+ ": " +:+ exn_str e0 ∧
       contains (exn_str e) (path_str p) = true ∧
       contains (exn_str e) (exn_str e0) = true.
Proof.
  intros Hp Hl He0. rewrite (read_file fs p content Hp), Hl, He0.
  eexists. split; [reflexivity|]. cbn [exn_type exn_str].
  repeat split.
  - apply contains_app.
  - rewrite <- (str_app_assoc (path_str p)), <- str_app_assoc. apply contains_end.
Qed.

(** When [write] returns, the file is there and holds the whole text of
    [json.dump]. *)
Lemma write_returns (fs fs' : filesystem) (p : path) (data : value) (indent : Z)
    (ensure_ascii create_dirs : bool) :
  write p data indent ensure_ascii create_dirs fs = (fs', Return tt) →
  node_at fs' p = Some (File (json_dump data indent ensure_ascii).1) ∧
  (json_dump data indent ensure_ascii).2 = None.
Proof.
  unfold write. unfold io_bind at 1. unfold Path_exists at 1. cbv beta.
  set (pre := if create_dirs && negb (bool_decide (is_Some (node_at fs (parent p))))
              then Path_mkdir_parents (parent p) else io_ret tt).
  unfold io_bind at 1. destruct (pre fs) as [fs1 [[]|e1]]; [|done]. clear pre.
  match goal with |- context [try_except ?b ?h] => set (handler := h) end.
  assert (∀ e fsx, ∃ e', handler e fsx = (fsx, Raise e')) as Hraises.
  { intros e fsx. subst handler. cbv beta. unfold raise, reraise.
    repeat (match goal with |- context [if ?b then _ else _] => destruct b end); eauto. }
  unfold try_except, io_bind.
  destruct (open_write_returns p fs1) as [(e & Ho)|(Hp & Ho)]; rewrite Ho.
  { destruct (Hraises e fs1) as [e' ->]. done. }
  unfold dump_to. destruct (json_dump data indent ensure_ascii) as [text [e|]].
  { destruct (Hraises e (<[p := File text]> (<[p := File ""]> fs1))) as [e' ->]. done. }
  intros [= <-]. cbn [fst snd]. split; [by apply node_at_insert_eq | done].
Qed.



(** C9.  [create] with [overwrite=False] at an existing file returns
    [False] and leaves the file system, and so the file, as it was. *)
Theorem create_keeps_existing (fs : filesystem) (p : path) (content : string)
    (data : value) (indent : Z) (ensure_ascii : bool) :
  node_at fs p = Some (File content) →
  create p data false indent ensure_ascii fs = (fs, Return false).
Proof.
  intros Hp. unfold create, io_bind, Path_exists.
  by rewrite bool_decide_eq_true_2 by (rewrite Hp; eauto).
Qed.

(** C10.  [update] on a file whose content [json.load] rejects raises
    exactly what [read] raises there, and the file system is as before:
    nothing was written.  For a [JSONDecodeError] that is the [JSONError]
    "Invalid JSON in file <p>: <detail>". *)
Theorem update_invalid_json (fs : filesystem) (p : path) (updates : dict)
    (create_if_not_exists : bool) (content : string) (e0 : exn) :
  node_at fs p = Some (File content) →
  json_load content = Raise e0 →
  ∃ e, read p fs = (fs, Raise e) ∧
       update p updates create_if_not_exists fs = (fs, Raise e) ∧
       (isinstance e0 JSONDecodeError = true →
        e = PyExn JSONError
              ("Invalid JSON in file " +:+ path_str p +:+ ": " +:+ exn_str e0)).
Proof.
  intros Hp Hl.
  assert (∃ e, read p fs = (fs, Raise e) ∧
               (isinstance e0 JSONDecodeError = true →
                e = PyExn JSONError
                      ("Invalid JSON in file " +:+ path_str p +:+ ": " +:+ exn_str e0)))
    as (e & Hr & He).
  { rewrite (read_file fs p content Hp), Hl.
    destruct (isinstance e0 JSONDecodeError); eexists; (split; [done|]); done. }
  exists e. split; [done|]. split; [|done].
  unfold update. unfold io_bind at 1. unfold Path_exists.
  rewrite bool_decide_eq_true_2 by (rewrite Hp; eauto).
  unfold io_bind. by rewrite Hr.
Qed.

Lemma existing_file_writable (fs : filesystem) (p : path) (content : string) :
  fs_wf fs → node_at fs p = Some (File content) →
  can_create_file fs p = true ∧ with_parents fs p = fs.
Proof.
  intros Hwf Hp. pose proof (file_not_root fs p content Hp) as Hne.
  pose proof (fs_wf_parent fs p _ Hwf Hne Hp) as Hpar.
  unfold can_create_file, with_parents. rewrite Hpar, Hp.
  rewrite !bool_decide_eq_true_2 by eauto. done.
Qed.

(** What [update] does to a well-formed file system at an existing file
    that parses: the content, when it is a dict, is updated and handed to
    [write] with its defaults; the updated dict is returned when [write]
    returns. *)
Lemma update_existing (fs : filesystem) (p : path) (updates : dict)
    (create_if_not_exists : bool) (content : string) (v : value) :
  fs_wf fs →
  node_at fs p = Some (File content) →
  json_load content = Return v →
  let merged := dict_update (match v with VDict items => items | _ => [] end) updates in
  update p updates create_if_not_exists fs =
    (<[p := File (json_dump (VDict merged) 4 false).1]> fs,
     match (json_dump (VDict merged) 4 false).2 with
     | None => Return merged
     | Some e =>
         if isinstance e TypeError || isinstance e OverflowError
            || isinstance e ValueError then
           Raise (PyExn JSONError ("Data is not JSON-serializable: " +:+ exn_str e))
         else
           Raise (PyExn JSONFileError
                    ("Error writing to file " +:+ path_str p +:+ ": " +:+ exn_str e))
     end).
Proof.
  intros Hwf Hp Hl merged.
  destruct (existing_file_writable fs p content Hwf Hp) as [Hc Hw].
  unfold update. unfold io_bind at 1. unfold Path_exists.
  rewrite bool_decide_eq_true_2 by (rewrite Hp; eauto).
  unfold io_bind at 1. unfold io_bind at 1.
  rewrite (read_file fs p content Hp), Hl.
  unfold io_ret at 1. unfold io_bind, write_defaults.
  fold merged. rewrite (write_at fs p _ 4 false Hc), Hw.
  destruct (json_dump (VDict merged) 4 false) as [text [e|]]; cbn [fst snd]; [|done].
  by destruct (isinstance e TypeError || isinstance e OverflowError
               || isinstance e ValueError).
Qed.




(** ** auto *)


Lemma auto_loop_cons (fs : filesystem) (q : path) (files : list path) (acc : dict) :
  auto_loop (q :: files) acc fs =
    if is_regular_file fs q
    then (result' <- auto_load q acc;; auto_loop files result') fs
    else auto_loop files acc fs.
Proof.
  cbn [auto_loop]. unfold io_bind at 1. unfold Path_is_file.
  by destruct (is_regular_file fs q).
Qed.

(** Loading a file does not change the file system. *)
Lemma auto_load_pure (fs : filesystem) (q : path) (acc : dict) :
  (auto_load q acc fs).1 = fs.
Proof.
  unfold auto_load, try_except, io_bind, open_read, load_from, io_ret, raise, reraise.
  destruct (node_at fs q) as [[|c]|]; [| destruct (json_load c) |];
    repeat (match goal with |- context [if ?b then _ else _] => destruct b end);
    done.
Qed.

Lemma auto_load_parsed (fs : filesystem) (q : path) (acc : dict) (v : value) :
  parsed_at fs q = Some v →
  auto_load q acc fs = (fs, Return (dict_set (stem q) v acc)).
Proof.
  unfold parsed_at, auto_load, try_except, io_bind, open_read, load_from, io_ret.
  destruct (node_at fs q) as [[|c]|]; try done.
  destruct (json_load c); [|done]. by intros [= ->].
Qed.

Lemma auto_loop_skips (fs : filesystem) (files : list path) :
  ∀ acc, auto_loop files acc fs
         = auto_loop (List.filter (is_regular_file fs) files) acc fs.
Proof.
  induction files as [|q files IH]; intros acc; [done|].
  cbn [List.filter]. rewrite auto_loop_cons.
  destruct (is_regular_file fs q) eqn:Hq; [|apply IH].
  rewrite auto_loop_cons, Hq. unfold io_bind.
  pose proof (auto_load_pure fs q acc) as Hpure.
  destruct (auto_load q acc fs) as [fs1 [r|e]]; cbn [fst] in Hpure; subst fs1;
    [apply IH | done].
Qed.

Lemma auto_loop_loads (fs : filesystem) (files : list path) :
  (∀ q, q ∈ files → is_Some (parsed_at fs q)) →
  ∀ acc, auto_loop files acc fs = (fs, Return (fold_left (loaded fs) files acc)).
Proof.
  induction files as [|q files IH]; intros Hall acc; [done|].
  destruct (Hall q) as [v Hv]; [left|].
  rewrite auto_loop_cons. cbn [fold_left]. unfold loaded at 2. rewrite Hv.
  assert (is_regular_file fs q = true) as ->.
  { unfold parsed_at in Hv. unfold is_regular_file.
    by destruct (node_at fs q) as [[|c]|]. }
  unfold io_bind. rewrite (auto_load_parsed fs q acc v Hv).
  apply IH. intros q' Hq'. apply Hall. by right.
Qed.

Lemma dict_get_loaded (fs : filesystem) (k : string) (files : list path) :
  (∀ q, q ∈ files → is_Some (parsed_at fs q)) →
  ∀ acc, dict_get k (fold_left (loaded fs) files acc)
         = match last (List.filter (fun q => String.eqb (stem q) k) files) with
           | Some q => parsed_at fs q
           | None => dict_get k acc
           end.
Proof.
  induction files as [|q files IH]; intros Hall acc; [done|].
  cbn [fold_left List.filter]. rewrite IH by (intros q' Hq'; apply Hall; by right).
  destruct (Hall q) as [v Hv]; [left|].
  unfold loaded. rewrite Hv.
  destruct (String.eqb (stem q) k) eqn:E.
  - rewrite last_cons.
    destruct (last (List.filter _ files)); [done|].
    apply String.eqb_eq in E as <-. by rewrite dict_get_set, String.eqb_refl.
  - destruct (last (List.filter _ files)); [done|].
    rewrite dict_get_set. rewrite String.eqb_sym in E. by rewrite E.
Qed.

Lemma elem_of_json_files (fs : filesystem) (d : path) (recursive : bool) (q : path) :
  node_at fs d = Some Dir →
  q ∈ json_files fs d recursive ↔
    is_regular_file fs q = true ∧
    matches_star_json (name q) = true ∧
    if recursive then d `prefix_of` q ∧ q ≠ d else q ≠ [] ∧ parent q = d.
Proof.
  intros Hd. unfold json_files, glob_list. rewrite bool_decide_eq_true_2 by done.
  rewrite !list_elem_of_In, !filter_In, <- list_elem_of_In.
  unfold glob_selects. rewrite andb_true_iff.
  assert (is_regular_file fs q = true → q ∈ map fst (map_to_list fs)) as Hin.
  { unfold is_regular_file. destruct q as [|x q]; [done|]. cbn [node_at].
    destruct (fs !! (x :: q)) as [n|] eqn:E; [|done]. intros _.
    apply (list_elem_of_fmap_2' fst _ (x :: q, n)); [|done].
    by apply elem_of_map_to_list. }
  destruct recursive; rewrite bool_decide_eq_true;
    (split; [intros [[_ [? ?]] ?] | intros (? & ? & ?)]; auto).
Qed.

Lemma auto_load_fails (fs : filesystem) (q : path) (acc : dict) :
  is_regular_file fs q = true → parsed_at fs q = None →
  ∃ e, auto_load q acc fs = (fs, Raise e) ∧
       (exn_type e = JSONError ∨ exn_type e = JSONFileError).
Proof.
  unfold is_regular_file, parsed_at, auto_load, try_except, io_bind, open_read, load_from,
    raise.
  destruct (node_at fs q) as [[|c]|]; try done. intros _.
  destruct (json_load c) as [v|e]; [done|]. intros _.
  destruct (isinstance e JSONDecodeError); [eexists; split; [done | by left]|].
  rewrite isinstance_Exception. eexists; split; [done | by right].
Qed.

Lemma auto_loop_returns (fs : filesystem) (files : list path) :
  (∀ q, q ∈ files → is_regular_file fs q = true) →
  ∀ acc fs' result,
    auto_loop files acc fs = (fs', Return result) →
    fs' = fs ∧ (∀ q, q ∈ files → is_Some (parsed_at fs q)) ∧
    result = fold_left (loaded fs) files acc.
Proof.
  induction files as [|q files IH]; intros Hreg acc fs' result.
  - intros [= <- <-]. split; [done|]. split; [|done]. by intros q ?%elem_of_nil.
  - rewrite auto_loop_cons, (Hreg q) by left. unfold io_bind.
    destruct (parsed_at fs q) as [v|] eqn:Hv.
    + rewrite (auto_load_parsed fs q acc v Hv). intros Hloop.
      apply IH in Hloop as (-> & Hall & ->); [|intros q' ?; apply Hreg; by right].
      split; [done|]. split.
      * intros q' [->|?]%elem_of_cons; [by exists v | by apply Hall].
      * cbn [fold_left].
        assert (loaded fs acc q = dict_set (stem q) v acc) as ->; [|done].
        unfold loaded. by rewrite Hv.
    + destruct (auto_load_fails fs q acc) as (e & -> & _); [by apply Hreg; left | done |].
      done.
Qed.


(** ** The other outcomes *)

(** X2.  [read] on a path that does not exist, and on a directory, raises a
    [JSONFileError]; on a regular file it returns what [json.load] parses,
    or raises [JSONError] for a [JSONDecodeError] and a [JSONFileError] for
    any other failure.  The file system is never changed. *)
Theorem read_outcomes (fs : filesystem) (p : path) :
  read p fs =
    (fs,
     match node_at fs p with
     | None => Raise (PyExn JSONFileError ("File not found: " +:+ path_str p))
     | Some Dir =>
         Raise (PyExn JSONFileError
                  ("Error reading file " +:+ path_str p +:+ ": " +:+
                   exn_str (os_error IsADirectoryError "[Errno 21] Is a directory" p)))
     | Some (File content) =>
         match json_load content with
         | Return v => Return v
         | Raise e =>
             if isinstance e JSONDecodeError then
               Raise (PyExn JSONError
                        ("Invalid JSON in file " +:+ path_str p +:+ ": " +:+ exn_str e))
             else
               Raise (PyExn JSONFileError
                        ("Error reading file " +:+ path_str p +:+ ": " +:+ exn_str e))
         end
     end).
Proof.
  destruct (node_at fs p) as [[|content]|] eqn:Hp.
  - unfold read, io_bind, Path_exists, try_except, open_read.
    rewrite bool_decide_eq_true_2 by (rewrite Hp; eauto). cbn [negb]. by rewrite Hp.
  - by apply read_file.
  - unfold read, io_bind, Path_exists.
    by rewrite bool_decide_eq_false_2 by (rewrite Hp; by intros [? ?]).
Qed.

(** X3.  [delete] returns [False] and changes nothing when the path does not
    exist; removes a regular file, and nothing else, and returns [True];
    and raises a [JSONFileError] for a directory. *)
Theorem delete_outcomes (fs : filesystem) (p : path) :
  delete p fs =
    match node_at fs p with
    | None => (fs, Return false)
    | Some (File _) => (base.delete p fs, Return true)
    | Some Dir =>
        (fs,
         Raise (PyExn JSONFileError
                  ("Error deleting file " +:+ path_str p +:+ ": " +:+
                   exn_str (os_error IsADirectoryError "[Errno 21] Is a directory" p))))
    end.
Proof.
  unfold delete, io_bind, Path_exists, try_except, Path_unlink.
  destruct (node_at fs p) as [[|content]|] eqn:Hp.
  - rewrite bool_decide_eq_true_2 by eauto. cbn [negb]. by rewrite Hp.
  - rewrite bool_decide_eq_true_2 by eauto. cbn [negb]. by rewrite Hp.
  - by rewrite bool_decide_eq_false_2 by (by intros [? ?]).
Qed.

(** X4.  [create] at a path that does not exist, or with [overwrite], is a call
    of [write] with [create_dirs=True], an absent [data] standing for the
    empty mapping; it returns [True] when [write] returns and raises what
    [write] raises. *)
Theorem create_writes (fs : filesystem) (p : path) (data : value)
    (overwrite : bool) (indent : Z) (ensure_ascii : bool) :
  node_at fs p = None ∨ overwrite = true →
  create p data overwrite indent ensure_ascii fs =
    let written := match data with VNone => VDict [] | _ => data end in
    match write p written indent ensure_ascii true fs with
    | (fs', Return _) => (fs', Return true)
    | (fs', Raise e) => (fs', Raise e)
    end.
Proof.
  intros H. unfold create. unfold io_bind at 1. unfold Path_exists.
  assert (bool_decide (is_Some (node_at fs p)) && negb overwrite = false) as ->.
  { destruct H as [Hp| ->]; [|apply andb_false_r].
    by rewrite bool_decide_eq_false_2 by (rewrite Hp; by intros [? ?]). }
  unfold io_bind. cbn zeta. by destruct (write _ _ _ _ _ fs) as [fs' [[]|e]].
Qed.

(** X5.  [update] at a path that does not exist raises a [JSONFileError] and
    changes nothing, unless [create_if_not_exists], when it writes [updates]
    as for a file that holds no mapping. *)
Theorem update_missing (fs : filesystem) (p : path) (updates : dict) :
  node_at fs p = None →
  update p updates false fs
    = (fs, Raise (PyExn JSONFileError ("File not found: " +:+ path_str p))) ∧
  update p updates true fs =
    match write p (VDict (dict_update [] updates)) 4 false true fs with
    | (fs', Return _) => (fs', Return (dict_update [] updates))
    | (fs', Raise e) => (fs', Raise e)
    end.
Proof.
  intros Hp. unfold update, io_bind, Path_exists, io_ret, raise, write_defaults.
  rewrite bool_decide_eq_false_2 by (rewrite Hp; by intros [? ?]).
  split; [done|]. by destruct (write _ _ _ _ _ fs) as [fs' [[]|e]].
Qed.


(** ** Well-formedness is kept *)

(** Every function of the package takes a well-formed file system to a
    well-formed one, whether it returns or raises. *)
Lemma keeps_wf_open_dump (p : path) (data : value) (indent : Z) (ea : bool) :
  keeps_wf (open_write p;;; dump_to p data indent ea).
Proof.
  intros fs Hwf. unfold io_bind, open_write, dump_to.
  assert (∀ t, node_at fs p ≠ Some Dir → node_at fs (parent p) = Some Dir →
               fs_wf (<[p := File t]> fs)) as Hins.
  { intros t Hnd Hpar. apply fs_wf_insert; [done | by intros -> | done | by right]. }
  destruct (node_at fs p) as [[|c]|] eqn:Ep; [done | |];
    (destruct (node_at fs (parent p)) as [[|c']|] eqn:Epar; [|done..]);
    destruct (json_dump data indent ea) as [text stopped]; cbn [fst];
    rewrite insert_insert_eq; by apply Hins.
Qed.

Lemma keeps_wf_read (p : path) : keeps_wf (read p).
Proof.
  apply keeps_wf_pure. intros fs.
  unfold read, io_bind, Path_exists, try_except, open_read, load_from, raise, reraise.
  destruct (bool_decide _); cbn [negb]; [|done].
  destruct (node_at fs p) as [[|c]|]; [| destruct (json_load c) |];
    repeat (match goal with |- context [if ?b then _ else _] => destruct b end); done.
Qed.

Lemma keeps_wf_write (p : path) (data : value) (indent : Z) (ea dirs : bool) :
  keeps_wf (write p data indent ea dirs).
Proof.
  unfold write. apply keeps_wf_bind; [by apply keeps_wf_pure|]. intros there.
  apply keeps_wf_bind.
  { destruct (dirs && negb there); [apply keeps_wf_mkdir | by apply keeps_wf_pure]. }
  intros _. apply keeps_wf_try; [apply keeps_wf_open_dump|].
  intros e. apply keeps_wf_pure. intros fs. unfold raise, reraise.
  repeat (match goal with |- context [if ?b then _ else _] => destruct b end); done.
Qed.

Lemma auto_loop_pure (files : list path) :
  ∀ acc fs, (auto_loop files acc fs).1 = fs.
Proof.
  induction files as [|q files IH]; intros acc fs; [done|].
  rewrite auto_loop_cons. destruct (is_regular_file fs q); [|apply IH].
  unfold io_bind. pose proof (auto_load_pure fs q acc) as Hpure.
  destruct (auto_load q acc fs) as [fs1 [r|e]]; cbn [fst] in Hpure; subst fs1;
    [apply IH | done].
Qed.

Lemma exists_pure (p : path) (fs : filesystem) : (exists_ p fs).1 = fs.
Proof.
  unfold exists_, io_bind, Path_exists, try_except, open_read, load_from, io_ret, reraise.
  destruct (bool_decide _); cbn [negb]; [|done].
  destruct (node_at fs p) as [[|c]|]; [| destruct (json_load c) |];
    repeat (match goal with |- context [if ?b then _ else _] => destruct b end); done.
Qed.

(** X1.  Every function of the package takes a well-formed file system to a
    well-formed one, whether it returns or raises. *)
Theorem package_keeps_fs_wf :
  (∀ d recursive create, keeps_wf (auto d recursive create)) ∧
  (∀ p, keeps_wf (read p)) ∧
  (∀ p data indent ea dirs, keeps_wf (write p data indent ea dirs)) ∧
  (∀ p updates create, keeps_wf (update p updates create)) ∧
  (∀ p, keeps_wf (delete p)) ∧
  (∀ p data overwrite indent ea, keeps_wf (create p data overwrite indent ea)) ∧
  (∀ p, keeps_wf (exists_ p)).
Proof.
  split_and!.
  - intros d recursive create. unfold auto.
    apply keeps_wf_bind; [by apply keeps_wf_pure|]. intros there.
    destruct there; cbn [negb].
    + apply keeps_wf_pure. intros fs. unfold io_bind, Path_glob. apply auto_loop_pure.
    + destruct create; [|by apply keeps_wf_pure].
      apply keeps_wf_bind; [apply keeps_wf_mkdir | intros _; by apply keeps_wf_pure].
  - apply keeps_wf_read.
  - apply keeps_wf_write.
  - intros p updates create. unfold update.
    apply keeps_wf_bind; [by apply keeps_wf_pure|]. intros there.
    apply keeps_wf_bind.
    + destruct there; [|destruct create; by apply keeps_wf_pure].
      apply keeps_wf_bind; [apply keeps_wf_read | intros v; by apply keeps_wf_pure].
    + intros data. apply keeps_wf_bind; [apply keeps_wf_write|].
      intros _. by apply keeps_wf_pure.
  - intros p. unfold delete.
    apply keeps_wf_bind; [by apply keeps_wf_pure|]. intros there.
    destruct there; cbn [negb]; [|by apply keeps_wf_pure].
    apply keeps_wf_try.
    + apply keeps_wf_bind; [apply keeps_wf_unlink | intros _; by apply keeps_wf_pure].
    + intros e. apply keeps_wf_pure. intros fs. unfold raise, reraise.
      by destruct (isinstance e Exception).
  - intros p data overwrite indent ea. unfold create.
    apply keeps_wf_bind; [by apply keeps_wf_pure|]. intros there.
    destruct (there && negb overwrite); [by apply keeps_wf_pure|].
    apply keeps_wf_bind; [apply keeps_wf_write | intros _; by apply keeps_wf_pure].
  - intros p. apply keeps_wf_pure. intros fs. apply exists_pure.
Qed.

(** ** Further properties of the package *)

(** In a well-formed file system everything above an entry is a directory. *)
Lemma fs_wf_ancestor (fs : filesystem) (d : path) (k : list string) (n : node) :
  fs_wf fs → k ≠ [] → node_at fs (d ++ k) = Some n → node_at fs d = Some Dir.
Proof.
  intros Hwf. revert n. induction k as [|x k IH] using rev_ind; intros n Hk Hq; [done|].
  rewrite app_assoc in Hq.
  apply fs_wf_parent in Hq; [|done|by destruct (d ++ k)].
  rewrite parent_snoc in Hq.
  destruct k as [|y k]; [by rewrite app_nil_r in Hq|].
  by apply (IH Dir).
Qed.

(** Whatever [Path.mkdir] does, what was there stays, and only the target
    and what is above it can be new. *)
Lemma mkdir_from_frame (rest : list string) :
  ∀ (here target : path) (fs : filesystem),
    (∀ q nd, node_at fs q = Some nd →
             node_at (mkdir_from here rest target fs).1 q = Some nd) ∧
    (∀ q, (∀ n, (n ≤ length rest)%nat → q ≠ here ++ take n rest) →
          (mkdir_from here rest target fs).1 !! q = fs !! q).
Proof.
  induction rest as [|x rest IH]; intros here target fs; cbn [mkdir_from].
  - destruct (node_at fs here) as [[|c]|] eqn:E; cbn [fst]; [done..|].
    split.
    + intros q nd Hq. rewrite node_at_insert_ne; [done|]. congruence.
    + intros q Hq. apply lookup_insert_ne. specialize (Hq 0%nat).
      rewrite app_nil_r in Hq. apply not_eq_sym, Hq. simpl; lia.
  - destruct (node_at fs here) as [[|c]|] eqn:E; [|done|].
    + destruct (IH (here ++ [x]) target fs) as [Hk Hfr]. split; [done|].
      intros q Hq. apply Hfr. intros n Hn. rewrite <- app_assoc. apply (Hq (S n)).
      simpl; lia.
    + destruct (IH (here ++ [x]) target (<[here := Dir]> fs)) as [Hk Hfr]. split.
      * intros q nd Hq. apply Hk. rewrite node_at_insert_ne; [done|]. congruence.
      * intros q Hq. rewrite Hfr.
        -- apply lookup_insert_ne. specialize (Hq 0%nat).
           rewrite app_nil_r in Hq. apply not_eq_sym, Hq. simpl; lia.
        -- intros n Hn. rewrite <- app_assoc. apply (Hq (S n)). simpl; lia.
Qed.

Lemma Path_mkdir_parents_frame (fs : filesystem) (d : path) :
  (∀ q nd, node_at fs q = Some nd → node_at (Path_mkdir_parents d fs).1 q = Some nd) ∧
  (∀ q, ¬ q `prefix_of` d → (Path_mkdir_parents d fs).1 !! q = fs !! q).
Proof.
  unfold Path_mkdir_parents. destruct (mkdir_from_frame d [] d fs) as [Hk Hfr].
  split; [done|]. intros q Hq. apply Hfr. intros n Hn ->. apply Hq. simpl.
  exists (drop n d). by rewrite take_drop.
Qed.




(** ** write, case by case *)

(** [write] with [create_dirs=False]: it fails on a directory and where the
    parent is not a directory, changing nothing; anywhere else the file is
    made or truncated and holds what [json.dump] wrote. *)
Lemma write_plain (fs : filesystem) (p : path) (data : value) (indent : Z)
    (ensure_ascii : bool) :
  write p data indent ensure_ascii false fs =
    match node_at fs p, node_at fs (parent p) with
    | Some Dir, _ =>
        (fs, Raise (PyExn JSONFileError
                      ("Error writing to file " +:+ path_str p +:+ ": " +:+
                       exn_str (os_error IsADirectoryError "[Errno 21] Is a directory" p))))
    | _, Some Dir =>
        (<[p := File (json_dump data indent ensure_ascii).1]> fs,
         match (json_dump data indent ensure_ascii).2 with
         | None => Return tt
         | Some e =>
             if isinstance e TypeError || isinstance e OverflowError
                || isinstance e ValueError then
               Raise (PyExn JSONError ("Data is not JSON-serializable: " +:+ exn_str e))
             else
               Raise (PyExn JSONFileError
                        ("Error writing to file " +:+ path_str p +:+ ": " +:+ exn_str e))
         end)
    | _, _ =>
        (fs, Raise (PyExn JSONFileError
                      ("Error writing to file " +:+ path_str p +:+ ": " +:+
                       exn_str (no_such_path fs p))))
    end.
Proof.
  unfold write. unfold io_bind at 1 2. unfold Path_exists, io_ret. cbn [andb].
  match goal with |- context [try_except ?b ?h] => set (handler := h) end.
  assert (∀ e fsx,
            isinstance e TypeError || isinstance e OverflowError
              || isinstance e ValueError = false →
            handler e fsx
            = (fsx, Raise (PyExn JSONFileError
                             ("Error writing to file " +:+ path_str p +:+ ": " +:+
                              exn_str e)))) as Hfile.
  { intros e fsx He. subst handler. cbv beta. by rewrite He, isinstance_Exception. }
  assert (∀ c what,
            c = IsADirectoryError ∨ c = FileNotFoundError ∨ c = NotADirectoryError →
            isinstance (os_error c what p) TypeError
              || isinstance (os_error c what p) OverflowError
              || isinstance (os_error c what p) ValueError = false) as Hos.
  { by intros c what [->|[->| ->]]. }
  assert (isinstance (no_such_path fs p) TypeError
            || isinstance (no_such_path fs p) OverflowError
            || isinstance (no_such_path fs p) ValueError = false) as Hno.
  { unfold no_such_path. destruct (no_file_on fs (parent p)); apply Hos; auto. }
  unfold try_except, io_bind, open_write, dump_to.
  destruct (node_at fs p) as [[|c]|];
    [apply Hfile, Hos; auto | |];
    (destruct (node_at fs (parent p)) as [[|c']|]; [| by apply Hfile ..]);
    destruct (json_dump data indent ensure_ascii) as [text [e|]]; cbn [fst snd];
    rewrite insert_insert_eq; try done;
    subst handler; cbv beta;
    (destruct (isinstance e TypeError || isinstance e OverflowError
               || isinstance e ValueError); [done|]);
    by rewrite isinstance_Exception.
Qed.

(** [create_dirs=True] only adds a [Path.mkdir] when the parent does not
    exist. *)
Lemma write_create_dirs (fs : filesystem) (p : path) (data : value) (indent : Z)
    (ensure_ascii : bool) :
  write p data indent ensure_ascii true fs =
    match node_at fs (parent p) with
    | Some _ => write p data indent ensure_ascii false fs
    | None =>
        match Path_mkdir_parents (parent p) fs with
        | (fs1, Return _) => write p data indent ensure_ascii false fs1
        | (fs1, Raise e) => (fs1, Raise e)
        end
    end.
Proof.
  unfold write. unfold io_bind at 1 3. unfold Path_exists at 1 2. cbn [andb].
  destruct (node_at fs (parent p)) as [nd|] eqn:E.
  - rewrite bool_decide_eq_true_2 by eauto. cbn [negb]. done.
  - rewrite bool_decide_eq_false_2 by (by intros [? ?]). cbn [negb].
    unfold io_bind at 1.
    destruct (Path_mkdir_parents (parent p) fs) as [fs1 [[]|e]]; [|done].
    unfold io_bind at 2. unfold Path_exists. unfold io_bind at 2. unfold io_ret. done.
Qed.


Lemma write_plain_frame (fs : filesystem) (p : path) (data : value) (indent : Z)
    (ensure_ascii : bool) :
  (∀ q nd, node_at fs q = Some nd → q ≠ p ∨ nd = Dir →
           node_at (write p data indent ensure_ascii false fs).1 q = Some nd) ∧
  (∀ q, q ≠ p → (write p data indent ensure_ascii false fs).1 !! q = fs !! q).
Proof.
  rewrite write_plain.
  assert (∀ t, node_at fs p ≠ Some Dir →
               ∀ q nd, node_at fs q = Some nd → q ≠ p ∨ nd = Dir →
                       node_at (<[p := File t]> fs) q = Some nd) as Hins.
  { intros t Hp q nd Hq Hor. rewrite node_at_insert_ne; [done|].
    intros <-. destruct Hor as [?| ->]; congruence. }
  destruct (node_at fs p) as [[|c]|] eqn:Ep; [done | |];
    (destruct (node_at fs (parent p)) as [[|c']|]; cbn [fst]; [|done..]);
    (split; [by apply Hins | intros q Hne; by apply lookup_insert_ne]).
Qed.

(** X7.  [write] raises a [JSONFileError] and changes nothing when the path is
    a directory, when its parent is a regular file, and when the parent
    does not exist and [create_dirs] is off. *)
Theorem write_cannot_open (fs : filesystem) (p : path) (data : value) (indent : Z)
    (ensure_ascii create_dirs : bool) :
  fs_wf fs →
  node_at fs p = Some Dir
  ∨ (∃ c, node_at fs (parent p) = Some (File c))
  ∨ (create_dirs = false ∧ node_at fs (parent p) = None) →
  write p data indent ensure_ascii create_dirs fs =
    (fs,
     Raise (PyExn JSONFileError
              ("Error writing to file " +:+ path_str p +:+ ": " +:+
               exn_str (match node_at fs p with
                        | Some Dir => os_error IsADirectoryError "[Errno 21] Is a directory" p
                        | _ => no_such_path fs p
                        end)))).
Proof.
  intros Hwf Hcase.
  assert (write p data indent ensure_ascii create_dirs fs
          = write p data indent ensure_ascii false fs) as ->.
  { destruct create_dirs; [|done]. rewrite write_create_dirs.
    destruct (node_at fs (parent p)) as [nd|] eqn:E; [done|].
    destruct Hcase as [Hd|[[c Hc]|[? _]]]; [|done..].
    destruct p as [|x p]; [done|].
    by rewrite (fs_wf_parent fs (x :: p) Dir Hwf) in E. }
  rewrite write_plain.
  destruct Hcase as [Hd|[[c Hc]|[_ Hn]]].
  - by rewrite Hd.
  - rewrite Hc. by destruct (node_at fs p) as [[|c0]|].
  - rewrite Hn. by destruct (node_at fs p) as [[|c0]|].
Qed.


(** ** What can be raised *)

Lemma read_pure (p : path) (fs : filesystem) : (read p fs).1 = fs.
Proof.
  unfold read, io_bind, Path_exists, try_except, open_read, load_from, raise, reraise.
  destruct (bool_decide _); cbn [negb]; [|done].
  destruct (node_at fs p) as [[|c]|]; [| destruct (json_load c) |];
    repeat (match goal with |- context [if ?b then _ else _] => destruct b end); done.
Qed.






(** ** Nothing else is touched *)

Lemma write_frame (fs : filesystem) (p : path) (data : value) (indent : Z)
    (ensure_ascii create_dirs : bool) :
  (∀ q nd, node_at fs q = Some nd → q ≠ p ∨ nd = Dir →
           node_at (write p data indent ensure_ascii create_dirs fs).1 q = Some nd) ∧
  (∀ q, q ≠ p → ¬ q `prefix_of` parent p →
        (write p data indent ensure_ascii create_dirs fs).1 !! q = fs !! q).
Proof.
  destruct create_dirs.
  - rewrite write_create_dirs.
    destruct (node_at fs (parent p)) as [nd0|].
    + destruct (write_plain_frame fs p data indent ensure_ascii) as [Hk Hfr].
      split; [done|]. intros q Hq _. by apply Hfr.
    + destruct (Path_mkdir_parents_frame fs (parent p)) as [Hk1 Hfr1].
      destruct (Path_mkdir_parents (parent p) fs) as [fs1 [[]|e]]; cbn [fst] in *;
        [|split; [intros q nd Hq _; by apply Hk1 | intros q _ Hq; by apply Hfr1]].
      destruct (write_plain_frame fs1 p data indent ensure_ascii) as [Hk Hfr].
      split.
      * intros q nd Hq Hor. apply Hk; [by apply Hk1 | done].
      * intros q Hne Hq. rewrite Hfr by done. by apply Hfr1.
  - destruct (write_plain_frame fs p data indent ensure_ascii) as [Hk Hfr].
    split; [done|]. intros q Hq _. by apply Hfr.
Qed.

(** X10.  [write], [create] and [update] leave every other file and every
    directory as it was, and make nothing new but the file itself and the
    missing directories above it; [delete] changes nothing but the file. *)
Theorem writers_touch_only_their_path (fs : filesystem) (p : path) :
  let untouched (fs' : filesystem) :=
    (∀ q nd, node_at fs q = Some nd → q ≠ p ∨ nd = Dir → node_at fs' q = Some nd) ∧
    (∀ q, q ≠ p → ¬ q `prefix_of` parent p → fs' !! q = fs !! q) in
  (∀ data indent ensure_ascii create_dirs,
     untouched (write p data indent ensure_ascii create_dirs fs).1) ∧
  (∀ data overwrite indent ensure_ascii,
     untouched (create p data overwrite indent ensure_ascii fs).1) ∧
  (∀ updates create_if_not_exists,
     untouched (update p updates create_if_not_exists fs).1) ∧
  (∀ q, q ≠ p → (delete p fs).1 !! q = fs !! q).
Proof.
  intros untouched.
  assert (untouched fs) as Hsame by (by split).
  split_and!.
  - intros data indent ensure_ascii create_dirs. apply write_frame.
  - intros data overwrite indent ensure_ascii. unfold create, io_bind, Path_exists, io_ret.
    destruct (_ && _); [done|].
    pose proof (write_frame fs p (match data with VNone => VDict [] | _ => data end)
                  indent ensure_ascii true) as Hw.
    by destruct (write p _ indent ensure_ascii true fs) as [fs1 [[]|e]].
  - intros updates create_if_not_exists.
    unfold update, io_bind, Path_exists, io_ret, raise, write_defaults. cbv zeta.
    assert (∀ data, untouched
              (let (fs1, r) := write p (VDict data) 4 false true fs in
               match r with
               | Return _ => (fs1, Return data)
               | Raise e => (fs1, Raise e)
               end).1) as Hw.
    { intros data. pose proof (write_frame fs p (VDict data) 4 false true) as Hw.
      by destruct (write p _ 4 false true fs) as [fs1 [[]|e]]. }
    destruct (bool_decide _).
    + pose proof (read_pure p fs) as Hpure.
      destruct (read p fs) as [fs1 [v|e1]]; cbn [fst] in Hpure; subst fs1; [|done].
      apply Hw.
    + destruct create_if_not_exists; [|done]. apply Hw.
  - intros q Hq. unfold delete, io_bind, Path_exists, try_except, Path_unlink, raise.
    destruct (bool_decide _); cbn [negb]; [|done].
    destruct (node_at fs p) as [[|c]|]; rewrite ?isinstance_Exception; cbn [fst]; try done.
    by apply lookup_delete_ne.
Qed.

(** X11.  [update] is not atomic: when the merged mapping cannot be
    serialized, the file has been truncated by the time [json.dump] fails,
    so the [JSONError] comes with the old content lost and the file holding
    the part of the new text that was written. *)
Theorem update_unserializable_loses_file (fs : filesystem) (p : path) (updates : dict)
    (create_if_not_exists : bool) (content : string) (v : value) (text : string)
    (e : exn) :
  fs_wf fs →
  node_at fs p = Some (File content) →
  json_load content = Return v →
  json_dump
    (VDict (dict_update (match v with VDict items => items | _ => [] end) updates))
    4 false = (text, Some e) →
  isinstance e TypeError || isinstance e OverflowError || isinstance e ValueError = true →
  update p updates create_if_not_exists fs
  = (<[p := File text]> fs,
     Raise (PyExn JSONError ("Data is not JSON-serializable: " +:+ exn_str e))).
Proof.
  intros Hwf Hp Hl Hd He.
  rewrite (update_existing fs p updates create_if_not_exists content v Hwf Hp Hl).
  cbn zeta. rewrite Hd. cbn [fst snd]. by rewrite He.
Qed.


(** X13.  Once [delete] has returned [True], the path named a regular file,
    which is gone: [exists] returns [False], [read] raises "File not
    found", and a second [delete] returns [False]. *)
Theorem delete_then_gone (fs fs' : filesystem) (p : path) :
  delete p fs = (fs', Return true) →
  (∃ content, node_at fs p = Some (File content)) ∧
  fs' = base.delete p fs ∧
  node_at fs' p = None ∧
  exists_ p fs' = (fs', Return false) ∧
  read p fs' = (fs', Raise (PyExn JSONFileError ("File not found: " +:+ path_str p))) ∧
  delete p fs' = (fs', Return false).
Proof.
  unfold delete at 1. unfold io_bind, Path_exists, try_except, Path_unlink, raise, io_ret.
  destruct (node_at fs p) as [[|c]|] eqn:Hp.
  - rewrite bool_decide_eq_true_2 by eauto. cbn [negb]. rewrite Hp.
    by rewrite isinstance_Exception.
  - rewrite bool_decide_eq_true_2 by eauto. cbn [negb]. rewrite Hp. intros [= <-].
    assert (node_at (base.delete p fs) p = None) as Hgone.
    { rewrite node_at_nonroot by (by intros ->). apply lookup_delete_eq. }
    split; [by exists c|]. split; [done|]. split; [done|].
    unfold exists_, read, delete, io_bind, Path_exists.
    rewrite !bool_decide_eq_false_2 by (rewrite Hgone; by intros [? ?]). done.
  - by rewrite bool_decide_eq_false_2 by (by intros [? ?]).
Qed.

(** X14.  Where the parent directory is there and the path is free, [delete]
    undoes [write]: whether [write] returned or [json.dump] failed half
    way, deleting the file gives back the file system as it was. *)
Theorem write_then_delete_restores (fs fs1 : filesystem) (p : path) (data : value)
    (indent : Z) (ensure_ascii create_dirs : bool) (outcome : result unit) :
  node_at fs p = None →
  node_at fs (parent p) = Some Dir →
  write p data indent ensure_ascii create_dirs fs = (fs1, outcome) →
  node_at fs1 p = Some (File (json_dump data indent ensure_ascii).1) ∧
  delete p fs1 = (fs, Return true).
Proof.
  intros Hp Hpar.
  assert (p ≠ []) as Hne by (by intros ->).
  assert (write p data indent ensure_ascii create_dirs fs
          = write p data indent ensure_ascii false fs) as ->.
  { destruct create_dirs; [|done]. by rewrite write_create_dirs, Hpar. }
  rewrite write_plain, Hp, Hpar. intros [= <- _].
  assert (node_at (<[p := File (json_dump data indent ensure_ascii).1]> fs) p
          = Some (File (json_dump data indent ensure_ascii).1)) as Hfile
    by (by apply node_at_insert_eq).
  split; [done|].
  unfold delete, io_bind, Path_exists, try_except, Path_unlink, io_ret.
  rewrite bool_decide_eq_true_2 by (rewrite Hfile; eauto). cbn [negb]. rewrite Hfile.
  f_equal. apply delete_insert_id. by rewrite node_at_nonroot in Hp.
Qed.

(** X15.  What the result of [create] means.  [True]: the file now holds the
    whole serialization of [data], of the empty mapping when [data] is
    [None], and either [overwrite] was set or nothing was at the path.
    [False]: something was at the path, [overwrite] was off, and nothing
    has been changed. *)
Theorem create_result (fs fs' : filesystem) (p : path) (data : value)
    (overwrite : bool) (indent : Z) (ensure_ascii : bool) (created : bool) :
  create p data overwrite indent ensure_ascii fs = (fs', Return created) →
  let written := match data with VNone => VDict [] | _ => data end in
  if created then
    node_at fs' p = Some (File (json_dump written indent ensure_ascii).1) ∧
    (json_dump written indent ensure_ascii).2 = None ∧
    (overwrite = true ∨ node_at fs p = None)
  else
    fs' = fs ∧ overwrite = false ∧ is_Some (node_at fs p).
Proof.
  unfold create, io_bind, Path_exists, io_ret.
  destruct (bool_decide (is_Some (node_at fs p))) eqn:Hthere.
  - destruct overwrite; cbn [andb negb].
    + destruct (write p _ indent ensure_ascii true fs) as [fs1 [[]|e]] eqn:Hw; [|done].
      intros [= <- <-]. cbn zeta. apply write_returns in Hw as [Hfile Hdone].
      split; [done|]. split; [done | by left].
    + intros [= <- <-]. cbn zeta. split; [done|]. split; [done|].
      by apply bool_decide_eq_true in Hthere.
  - cbn [andb].
    destruct (write p _ indent ensure_ascii true fs) as [fs1 [[]|e]] eqn:Hw; [|done].
    intros [= <- <-]. cbn zeta. apply write_returns in Hw as [Hfile Hdone].
    split; [done|]. split; [done|]. right.
    apply bool_decide_eq_false in Hthere.
    destruct (node_at fs p); [|done]. destruct Hthere. eauto.
Qed.

(** ** update twice *)

Lemma dict_set_same (k : string) (v : value) (d : dict) :
  dict_get k d = Some v → dict_set k v d = d.
Proof.
  induction d as [|[k0 v0] d IH]; cbn [dict_get dict_set]; [done|].
  destruct (String.eqb k k0) eqn:E.
  - apply String.eqb_eq in E as ->. by intros [= ->].
  - intros Hd. by rewrite IH.
Qed.

Lemma dict_update_same (u : dict) :
  ∀ d, (∀ k v, (k, v) ∈ u → dict_get k d = Some v) → dict_update d u = d.
Proof.
  unfold dict_update. induction u as [|[k v] u IH]; intros d Hall; cbn [fold_left]; [done|].
  cbn [fst snd]. rewrite dict_set_same by (apply Hall; left).
  apply IH. intros k' v' Hin. apply Hall. by right.
Qed.

Lemma dict_get_elem (k : string) (v : value) (u : dict) :
  dict_ok u → (k, v) ∈ u → dict_get k u = Some v.
Proof.
  unfold dict_ok. induction u as [|[k0 v0] u IH]; cbn [map fst dict_get].
  - by intros _ ?%elem_of_nil.
  - intros [Hk0 Hnd]%NoDup_cons [[= -> ->]|Hin]%elem_of_cons.
    + by rewrite String.eqb_refl.
    + destruct (String.eqb k k0) eqn:E; [|by apply IH].
      apply String.eqb_eq in E as ->. destruct Hk0.
      by apply (list_elem_of_fmap_2' fst _ (k0, v)).
Qed.

(** Updating with the same mapping a second time changes nothing. *)
Lemma dict_update_idem (m u : dict) :
  dict_ok u → dict_update (dict_update m u) u = dict_update m u.
Proof.
  intros Hu. apply dict_update_same. intros k v Hin.
  by rewrite dict_get_update, (dict_get_elem k v u Hu Hin).
Qed.

(** X16.  [update] is idempotent where the codec reads back what it wrote:
    after an [update] that returned, [read] returns the merged mapping, and
    the same [update] again returns the same mapping and leaves the file
    as the first one left it. *)
Theorem update_is_idempotent (fs : filesystem) (p : path) (updates : dict)
    (first second : bool) (content : string) (v : value) (text : string) :
  fs_wf fs →
  node_at fs p = Some (File content) →
  json_load content = Return v →
  dict_ok updates →
  let merged := dict_update (match v with VDict items => items | _ => [] end) updates in
  json_dump (VDict merged) 4 false = (text, None) →
  json_load text = Return (VDict merged) →
  let fs1 := <[p := File text]> fs in
  update p updates first fs = (fs1, Return merged) ∧
  read p fs1 = (fs1, Return (VDict merged)) ∧
  update p updates second fs1 = (fs1, Return merged).
Proof.
  intros Hwf Hp Hl Hu merged Hd Hback fs1.
  pose proof (file_not_root fs p content Hp) as Hne.
  assert (node_at fs1 p = Some (File text)) as Hp1 by (by apply node_at_insert_eq).
  assert (fs_wf fs1) as Hwf1.
  { apply fs_wf_insert; [done | done | by apply (fs_wf_parent fs p _ Hwf Hne Hp) |].
    right. congruence. }
  split_and!.
  - rewrite (update_existing fs p updates first content v Hwf Hp Hl).
    cbn zeta. fold merged. by rewrite Hd.
  - by rewrite (read_file fs1 p text Hp1), Hback.
  - rewrite (update_existing fs1 p updates second text (VDict merged) Hwf1 Hp1 Hback).
    cbn zeta. unfold merged at 1 2 3. rewrite dict_update_idem by done. fold merged.
    rewrite Hd. cbn [fst snd]. unfold fs1. by rewrite insert_insert_eq.
Qed.

(** ** auto, one directory *)

Lemma auto_on_directory (fs : filesystem) (d : path) (recursive create : bool) :
  node_at fs d = Some Dir →
  auto d recursive create fs = auto_loop (json_files fs d recursive) [] fs.
Proof.
  intros Hd. unfold auto, io_bind, Path_exists, Path_glob.
  rewrite bool_decide_eq_true_2 by (rewrite Hd; eauto). cbn [negb].
  apply auto_loop_skips.
Qed.

Lemma NoDup_List_filter {A} (f : A → bool) (l : list A) :
  NoDup l → NoDup (List.filter f l).
Proof.
  induction 1 as [|x l Hx Hnd IH]; cbn [List.filter]; [constructor|].
  destruct (f x); [|done]. constructor; [|done].
  rewrite list_elem_of_In, filter_In, <- list_elem_of_In. by intros [? _].
Qed.

Lemma json_files_NoDup (fs : filesystem) (d : path) (recursive : bool) :
  NoDup (json_files fs d recursive).
Proof.
  unfold json_files, glob_list. apply NoDup_List_filter.
  destruct (bool_decide _); [|constructor].
  apply NoDup_List_filter, NoDup_fst_map_to_list.
Qed.

Lemma NoDup_all_equal {A} (a : A) (l : list A) :
  NoDup l → (∀ x, x ∈ l → x = a) → l = [] ∨ l = [a].
Proof.
  destruct l as [|x [|y l]]; [by left | |].
  - intros _ H. right. f_equal. apply H. left.
  - intros Hnd H. apply NoDup_cons in Hnd as [Hx _]. destruct Hx.
    rewrite (H x) by left. rewrite (H y) by (right; left). left.
Qed.

Lemma path_parent_name (q : path) : q ≠ [] → q = parent q ++ [name q].
Proof.
  intros Hq. destruct (exists_last Hq) as (r & x & ->).
  rewrite parent_snoc. unfold name. by rewrite last_snoc.
Qed.

Lemma str_app_inv_r (a b c : string) : a +:+ c = b +:+ c → a = b.
Proof.
  intros H. apply (f_equal list_ascii_of_string) in H.
  rewrite !list_ascii_of_app in H. apply app_inv_tail in H.
  rewrite <- (string_of_list_ascii_of_string a), <- (string_of_list_ascii_of_string b).
  by rewrite H.
Qed.

Lemma name_snoc (d : path) (x : string) : name (d ++ [x]) = x.
Proof. unfold name. by rewrite last_snoc. Qed.

(** In one directory a stem names one file: the files of stem [k] that
    [auto] loads without [recursive] are [<k>.json] alone, if it is there. *)
Lemma flat_files_of_stem (fs : filesystem) (d : path) (k : string) :
  node_at fs d = Some Dir → k ≠ "" → k ≠ ".json" →
  List.filter (fun q => String.eqb (stem q) k) (json_files fs d false)
  = if is_regular_file fs (d ++ [k +:+ ".json"]) then [d ++ [k +:+ ".json"]] else [].
Proof.
  intros Hd Hk1 Hk2.
  set (q0 := d ++ [k +:+ ".json"]).
  set (F := List.filter _ _).
  assert (∀ q, q ∈ F ↔ q = q0 ∧ is_regular_file fs q0 = true) as HF.
  { intros q. unfold F. rewrite list_elem_of_In, filter_In, <- list_elem_of_In.
    rewrite (elem_of_json_files fs d false q Hd), String.eqb_eq, matches_star_json_spec.
    split.
    - intros ((Hreg & [pre Hname] & Hq & Hpar) & Hstem).
      unfold stem in Hstem. rewrite Hname, stem_of_json_name in Hstem.
      destruct (String.eqb pre "") eqn:E; [congruence|]. subst pre.
      assert (q = q0) as ->; [|done].
      rewrite (path_parent_name q Hq), Hpar, Hname. done.
    - intros [-> Hreg]. unfold q0. split_and!.
      + done.
      + exists k. apply name_snoc.
      + by destruct d.
      + apply parent_snoc.
      + unfold stem. rewrite name_snoc, stem_of_json_name.
        apply String.eqb_neq in Hk1. by rewrite Hk1. }
  destruct (NoDup_all_equal q0 F) as [HF0|HF1].
  - apply NoDup_List_filter, json_files_NoDup.
  - intros x Hx. by apply HF in Hx as [-> _].
  - rewrite HF0. destruct (is_regular_file fs q0) eqn:Hreg; [|done].
    assert (q0 ∈ F) as Hin by (by apply HF). rewrite HF0 in Hin. by apply elem_of_nil in Hin.
  - rewrite HF1. assert (q0 ∈ F) as Hin by (rewrite HF1; left).
    apply HF in Hin as [_ ->]. done.
Qed.

Lemma auto_flat_lookup (fs fs' : filesystem) (d : path) (create : bool) (result : dict)
    (k : string) :
  node_at fs d = Some Dir →
  auto d false create fs = (fs', Return result) →
  k ≠ "" → k ≠ ".json" →
  fs' = fs ∧
  dict_get k result = parsed_at fs (d ++ [k +:+ ".json"]) ∧
  (is_regular_file fs (d ++ [k +:+ ".json"]) = true →
   is_Some (parsed_at fs (d ++ [k +:+ ".json"]))).
Proof.
  intros Hd Hauto Hk1 Hk2. rewrite (auto_on_directory fs d false create Hd) in Hauto.
  apply auto_loop_returns in Hauto as (-> & Hall & ->);
    [|intros q Hq; by apply (elem_of_json_files fs d false q Hd) in Hq as [? _]].
  split; [done|].
  rewrite dict_get_loaded by done.
  rewrite (flat_files_of_stem fs d k Hd Hk1 Hk2).
  destruct (is_regular_file fs (d ++ [k +:+ ".json"])) eqn:Hreg.
  - split; [done|]. intros _. apply Hall.
    apply (elem_of_json_files fs d false _ Hd). split_and!.
    + done.
    + apply matches_star_json_spec. exists k. apply name_snoc.
    + by destruct d.
    + apply parent_snoc.
  - split; [|done]. cbn [last dict_get]. unfold parsed_at.
    unfold is_regular_file in Hreg.
    by destruct (node_at fs (d ++ [k +:+ ".json"])) as [[|c]|].
Qed.

(** X17.  Without [recursive], the mapping [auto] returns has at the key [k]
    what the file [<k>.json] of the directory holds, and has no key [k]
    when there is no such file.  (The file named [.json], whose stem is
    the whole name, is left aside.) *)
Theorem auto_flat_keys (fs fs' : filesystem) (d : path) (create_if_not_exists : bool)
    (result : dict) (k : string) :
  node_at fs d = Some Dir →
  auto d false create_if_not_exists fs = (fs', Return result) →
  k ≠ "" → k ≠ ".json" →
  match node_at fs (d ++ [k +:+ ".json"]) with
  | Some (File content) =>
      ∃ v, json_load content = Return v ∧ dict_get k result = Some v
  | _ => dict_get k result = None
  end.
Proof.
  intros Hd Hauto Hk1 Hk2.
  destruct (auto_flat_lookup fs fs' d create_if_not_exists result k Hd Hauto Hk1 Hk2)
    as (_ & Hget & Hsome).
  unfold parsed_at, is_regular_file in *.
  destruct (node_at fs (d ++ [k +:+ ".json"])) as [[|content]|]; [done | | done].
  destruct Hsome as [v Hv]; [done|].
  destruct (json_load content) as [v'|e]; [|done]. by exists v'.
Qed.

(** X18.  [auto] on a path that names a regular file returns the empty
    mapping: the file is not loaded, nothing is raised, nothing changes. *)
Theorem auto_on_regular_file (fs : filesystem) (d : path)
    (recursive create_if_not_exists : bool) (content : string) :
  node_at fs d = Some (File content) →
  auto d recursive create_if_not_exists fs = (fs, Return []).
Proof.
  intros Hd. unfold auto, io_bind, Path_exists, Path_glob, glob_list.
  rewrite bool_decide_eq_true_2 by (rewrite Hd; eauto). cbn [negb].
  by rewrite bool_decide_eq_false_2 by congruence.
Qed.

(** X19.  A directory that [auto] has just made is empty: a second [auto]
    on it, with any flags, returns the empty mapping and changes nothing. *)
Theorem auto_create_then_auto (fs fs1 : filesystem) (d : path) (recursive : bool)
    (result : dict) :
  fs_wf fs →
  node_at fs d = None →
  auto d recursive true fs = (fs1, Return result) →
  result = [] ∧
  ∀ recursive' create', auto d recursive' create' fs1 = (fs1, Return []).
Proof.
  intros Hwf Hd. unfold auto at 1. unfold io_bind, Path_exists.
  rewrite bool_decide_eq_false_2 by (rewrite Hd; by intros [? ?]). cbn [negb].
  destruct (no_file_on fs d) eqn:Hnf.
  - destruct (Path_mkdir_parents_ok fs d Hnf) as (fs2 & -> & Hdirs & Hfr & Hk).
    intros [= <- <-]. split; [done|]. intros recursive' create'.
    assert (node_at fs2 d = Some Dir) as Hd2 by (by apply Hdirs).
    rewrite (auto_on_directory fs2 d recursive' create' Hd2).
    assert (json_files fs2 d recursive' = []) as ->; [|done].
    destruct (json_files fs2 d recursive') as [|q l] eqn:E; [done|].
    assert (q ∈ json_files fs2 d recursive') as Hq by (rewrite E; left).
    apply (elem_of_json_files fs2 d recursive' q Hd2) in Hq as (Hreg & _ & Hbelow).
    assert (∃ k, k ≠ [] ∧ q = d ++ k) as (k & Hk0 & ->).
    { destruct recursive'.
      - destruct Hbelow as [[k ->] Hne]. exists k. split; [|done].
        intros ->. by rewrite app_nil_r in Hne.
      - destruct Hbelow as [Hne <-]. exists [name q]. split; [done|].
        by apply path_parent_name. }
    unfold is_regular_file in Hreg.
    destruct (node_at fs2 (d ++ k)) as [[|c]|] eqn:Hq; try done.
    assert (d ++ k ≠ []) as Hne by (destruct d, k; done).
    rewrite node_at_nonroot in Hq by done. rewrite Hfr in Hq.
    + rewrite <- node_at_nonroot in Hq by done.
      by rewrite (fs_wf_ancestor fs d k _ Hwf Hk0 Hq) in Hd.
    + intros Hpre. apply prefix_length in Hpre. rewrite length_app in Hpre.
      destruct k; [done|]. simpl in Hpre. lia.
  - destruct (Path_mkdir_parents_blocked fs d Hnf) as (fs2 & e & -> & _). done.
Qed.

(** When [write] returns, the parent of the file is a directory. *)
Lemma write_returns_parent (fs fs' : filesystem) (p : path) (data : value) (indent : Z)
    (ensure_ascii create_dirs : bool) :
  write p data indent ensure_ascii create_dirs fs = (fs', Return tt) →
  node_at fs' (parent p) = Some Dir.
Proof.
  assert (∀ fs0, write p data indent ensure_ascii false fs0 = (fs', Return tt) →
                 node_at fs' (parent p) = Some Dir) as Hplain.
  { intros fs0. rewrite write_plain.
    destruct (node_at fs0 p) as [[|c]|] eqn:Hp; [done | |];
      (destruct (node_at fs0 (parent p)) as [[|c']|] eqn:Hpar; [|done..]);
      intros [= <- _];
      (rewrite node_at_insert_ne; [done|]);
      (apply not_eq_sym, parent_ne; intros ->; cbn in Hp; congruence). }
  destruct create_dirs; [|apply Hplain].
  rewrite write_create_dirs. destruct (node_at fs (parent p)); [apply Hplain|].
  destruct (Path_mkdir_parents (parent p) fs) as [fs1 [[]|e]]; [apply Hplain | done].
Qed.

(** X20.  [auto] finds what [write] wrote: once [write] has put a value that
    the codec reads back into [<k>.json] of a directory and [auto] has
    returned for that directory without [recursive], the mapping has the
    value at the key [k]. *)
Theorem auto_loads_written_file (fs fs1 fs2 : filesystem) (d : path) (k : string)
    (v : value) (indent : Z) (ensure_ascii create_dirs create_if_not_exists : bool)
    (text : string) (result : dict) :
  k ≠ "" → k ≠ ".json" →
  json_dump v indent ensure_ascii = (text, None) →
  json_load text = Return v →
  write (d ++ [k +:+ ".json"]) v indent ensure_ascii create_dirs fs = (fs1, Return tt) →
  auto d false create_if_not_exists fs1 = (fs2, Return result) →
  fs2 = fs1 ∧ dict_get k result = Some v.
Proof.
  intros Hk1 Hk2 Hd Hl Hw Hauto.
  pose proof (write_returns_parent _ _ _ _ _ _ _ Hw) as Hdir. rewrite parent_snoc in Hdir.
  apply write_returns in Hw as [Hfile _]. rewrite Hd in Hfile. cbn [fst] in Hfile.
  destruct (auto_flat_lookup fs1 fs2 d create_if_not_exists result k Hdir Hauto Hk1 Hk2)
    as (-> & Hget & _).
  split; [done|]. rewrite Hget. unfold parsed_at. by rewrite Hfile, Hl.
Qed.

(** ** Outcomes at a given place, for running the package by hand *)

Lemma write_returns_at (fs : filesystem) (p : path) (data : value) (indent : Z)
    (ensure_ascii : bool) :
  can_create_file fs p = true →
  (json_dump data indent ensure_ascii).2 = None →
  write p data indent ensure_ascii true fs
  = (<[p := File (json_dump data indent ensure_ascii).1]> (with_parents fs p), Return tt).
Proof. intros Hc Hd. by rewrite (write_at fs p data indent ensure_ascii Hc), Hd. Qed.

Lemma create_at (fs : filesystem) (p : path) (data : value) (overwrite : bool)
    (indent : Z) (ensure_ascii : bool) :
  node_at fs p = None ∨ overwrite = true →
  can_create_file fs p = true →
  let written := match data with VNone => VDict [] | _ => data end in
  (json_dump written indent ensure_ascii).2 = None →
  create p data overwrite indent ensure_ascii fs
  = (<[p := File (json_dump written indent ensure_ascii).1]> (with_parents fs p),
     Return true).
Proof.
  intros H Hc written Hd. unfold create, io_bind, Path_exists.
  assert (bool_decide (is_Some (node_at fs p)) && negb overwrite = false) as ->.
  { destruct H as [Hp| ->]; [|apply andb_false_r].
    by rewrite bool_decide_eq_false_2 by (rewrite Hp; by intros [? ?]). }
  fold written. by rewrite (write_returns_at fs p written indent ensure_ascii Hc Hd).
Qed.

Lemma delete_file (fs : filesystem) (p : path) (content : string) :
  node_at fs p = Some (File content) → delete p fs = (base.delete p fs, Return true).
Proof.
  intros Hp. unfold delete, io_bind, Path_exists, try_except, Path_unlink.
  rewrite bool_decide_eq_true_2 by (rewrite Hp; eauto). cbn [negb]. by rewrite Hp.
Qed.

Lemma auto_returns_at (fs : filesystem) (d : path) (recursive create : bool) :
  node_at fs d = Some Dir →
  Forall (fun q => is_Some (parsed_at fs q)) (json_files fs d recursive) →
  auto d recursive create fs
  = (fs, Return (fold_left (loaded fs) (json_files fs d recursive) [])).
Proof.
  intros Hd Hall. rewrite (auto_on_directory fs d recursive create Hd).
  apply auto_loop_loads. by apply Forall_forall.
Qed.

Lemma auto_creates_at (fs : filesystem) (d : path) (recursive : bool) :
  node_at fs d = None → no_file_on fs d = true →
  auto d recursive true fs = ((Path_mkdir_parents d fs).1, Return []).
Proof.
  intros Hd Hnf. unfold auto, io_bind, Path_exists.
  rewrite bool_decide_eq_false_2 by (rewrite Hd; by intros [? ?]). cbn [negb].
  by destruct (Path_mkdir_parents_ok fs d Hnf) as (fs1 & -> & _).
Qed.

End Properties.

(** * The package on concrete inputs, with the reference codec *)

(** The bulk-load example: both files with [recursive], only the one
    directly in the directory without. *)
Example auto_fs_data :
  auto (codec := ref_codec) ["data"] true false fs_data
    = (fs_data, Return [("b", VDict [("y", VInt 2)]); ("a", VDict [("x", VInt 1)])]) ∧
  auto (codec := ref_codec) ["data"] false false fs_data
    = (fs_data, Return [("a", VDict [("x", VInt 1)])]).
Proof. split; vm_compute; reflexivity. Qed.

(** C1 fails as stated: [write] of NaN does not fail, it returns and the
    file holds [NaN]; and [write] of a set over an existing file raises the
    [JSONError] but has emptied the file by then. *)
Lemma write_nan_is_written :
  write (codec := ref_codec) ["out.json"] (VFloat FNaN) 4 false true ∅
    = ({[ ["out.json"] := File "NaN" ]}, Return tt) ∧
  (¬ ∃ fs' e, write (codec := ref_codec) ["out.json"] (VFloat FNaN) 4 false true ∅
              = (fs', Raise e)) ∧
  write (codec := ref_codec) ["conf.json"] (VObject "set") 4 false true fs_conf
    = (<[ ["conf.json"] := File "" ]> fs_conf,
       Raise (PyExn JSONError
                "Data is not JSON-serializable: Object of type set is not JSON serializable")).
Proof.
  assert (write (codec := ref_codec) ["out.json"] (VFloat FNaN) 4 false true ∅
          = ({[ ["out.json"] := File "NaN" ]}, Return tt)) as H
    by (vm_compute; reflexivity).
  split; [exact H|]. split.
  - intros (fs' & e & He). rewrite H in He. discriminate He.
  - vm_compute; reflexivity.
Qed.

Lemma write_serialization_outcome_witness :
  can_create_file fs_data ["data"; "new"; "out.json"] = true ∧
  json_dump (JsonCodec := ref_codec) (VList [VInt 1; VObject "set"]) 4 false
    = ("[
    1,
    ", Some (PyExn TypeError "Object of type set is not JSON serializable")) ∧
  write (codec := ref_codec) ["data"; "new"; "out.json"]
      (VList [VInt 1; VObject "set"]) 4 false true fs_data
    = (<[ ["data"; "new"; "out.json"] := File "[
    1,
    " ]> (with_parents fs_data ["data"; "new"; "out.json"]),
       Raise (PyExn JSONError
                "Data is not JSON-serializable: Object of type set is not JSON serializable")).
Proof.
  split; [vm_compute; reflexivity|]. split; [vm_compute; reflexivity|].
  apply (write_serialization_outcome (codec := ref_codec) fs_data
           ["data"; "new"; "out.json"] (VList [VInt 1; VObject "set"]) 4 false _
           (Some (PyExn TypeError "Object of type set is not JSON serializable")));
    vm_compute; reflexivity.
Defined.

(** C2 fails as stated: the exception [read] raises for a file holding
    [not json] is a plain [JSONError], not a [JSONValidationError]. *)
Lemma read_not_json_is_base_error :
  read (codec := ref_codec) ["broken.json"] fs_conf
    = (fs_conf,
       Raise (PyExn JSONError
                "Invalid JSON in file /broken.json: Expecting value: line 1 column 1 (char 0)")) ∧
  ¬ ∃ e, read (codec := ref_codec) ["broken.json"] fs_conf = (fs_conf, Raise e) ∧
         isinstance e JSONValidationError = true.
Proof.
  assert (read (codec := ref_codec) ["broken.json"] fs_conf
          = (fs_conf,
             Raise (PyExn JSONError
                      "Invalid JSON in file /broken.json: Expecting value: line 1 column 1 (char 0)")))
    as H by (vm_compute; reflexivity).
  split; [exact H|]. intros (e & He & Hval). rewrite H in He.
  injection He as <-. vm_compute in Hval. discriminate Hval.
Qed.

Lemma read_invalid_json_witness :
  node_at fs_conf ["broken.json"] = Some (File "not json") ∧
  json_load (JsonCodec := ref_codec) "not json"
    = Raise (PyExn JSONDecodeError "Expecting value: line 1 column 1 (char 0)") ∧
  ∃ e, read (codec := ref_codec) ["broken.json"] fs_conf = (fs_conf, Raise e) ∧
       exn_type e = JSONError ∧
       contains (exn_str e) "/broken.json" = true ∧
       contains (exn_str e) "Expecting value: line 1 column 1 (char 0)" = true.
Proof.
  split; [vm_compute; reflexivity|]. split; [vm_compute; reflexivity|].
  destruct (read_invalid_json (codec := ref_codec) fs_conf ["broken.json"] "not json"
              (PyExn JSONDecodeError "Expecting value: line 1 column 1 (char 0)"))
    as (e & Hread & Hty & _ & _ & _ & Hpath & Hdetail);
    [vm_compute; reflexivity ..|].
  exists e. repeat split; assumption.
Defined.


Lemma create_keeps_existing_witness :
  node_at fs_conf ["conf.json"] = Some (File (quoted "{'a': 1, 'b': 2}")) ∧
  create (codec := ref_codec) ["conf.json"] (VList []) false 4 false fs_conf
    = (fs_conf, Return false).
Proof.
  split; [vm_compute; reflexivity|].
  apply (create_keeps_existing (codec := ref_codec) fs_conf ["conf.json"]
           (quoted "{'a': 1, 'b': 2}")).
  vm_compute; reflexivity.
Defined.

Lemma update_invalid_json_witness :
  node_at fs_conf ["broken.json"] = Some (File "not json") ∧
  json_load (JsonCodec := ref_codec) "not json"
    = Raise (PyExn JSONDecodeError "Expecting value: line 1 column 1 (char 0)") ∧
  update (codec := ref_codec) ["broken.json"] [("k", VInt 1)] false fs_conf
    = (fs_conf,
       Raise (PyExn JSONError
                "Invalid JSON in file /broken.json: Expecting value: line 1 column 1 (char 0)")).
Proof.
  split; [vm_compute; reflexivity|]. split; [vm_compute; reflexivity|].
  destruct (update_invalid_json (codec := ref_codec) fs_conf ["broken.json"]
              [("k", VInt 1)] false "not json"
              (PyExn JSONDecodeError "Expecting value: line 1 column 1 (char 0)"))
    as (e & _ & Hupdate & He); [vm_compute; reflexivity ..|].
  rewrite Hupdate, He; [|vm_compute; reflexivity]. vm_compute; reflexivity.
Defined.

Lemma fs_wf_empty : fs_wf ∅.
Proof. intros p n Hp. by rewrite lookup_empty in Hp. Qed.

Lemma fs_conf_wf : fs_wf fs_conf.
Proof. apply (@bool_decide_unpack _ (fs_wf_dec fs_conf)). vm_compute. exact I. Qed.

Lemma dict_ok_example : dict_ok [("b", VInt 3); ("c", VInt 4)].
Proof. unfold dict_ok. apply (bool_decide_unpack _). vm_compute. exact I. Qed.





Lemma create_writes_witness :
  node_at fs_conf ["new"; "doc.json"] = None ∧
  create (codec := ref_codec) ["new"; "doc.json"] VNone false 4 false fs_conf
    = (<[ ["new"; "doc.json"] := File "{}" ]> (<[ ["new"] := Dir ]> fs_conf), Return true).
Proof.
  split; [vm_compute; reflexivity|].
  rewrite (create_writes (codec := ref_codec) fs_conf ["new"; "doc.json"] VNone false 4 false)
    by (left; vm_compute; reflexivity).
  vm_compute; reflexivity.
Defined.

Lemma update_missing_witness :
  node_at fs_conf ["new.json"] = None ∧
  update (codec := ref_codec) ["new.json"] [("k", VInt 1)] false fs_conf
    = (fs_conf, Raise (PyExn JSONFileError "File not found: /new.json")) ∧
  update (codec := ref_codec) ["new.json"] [("k", VInt 1)] true fs_conf
    = (<[ ["new.json"] := File (quoted "{
    'k': 1
}") ]> fs_conf, Return [("k", VInt 1)]).
Proof.
  split; [vm_compute; reflexivity|].
  destruct (update_missing (codec := ref_codec) fs_conf ["new.json"] [("k", VInt 1)])
    as [Hfalse Htrue]; [vm_compute; reflexivity|].
  split; [exact Hfalse|]. rewrite Htrue. vm_compute; reflexivity.
Defined.


(** ** Further properties, run *)

Lemma fs_data_wf : fs_wf fs_data.
Proof. apply (@bool_decide_unpack _ (fs_wf_dec fs_data)). vm_compute. exact I. Qed.

Lemma write_cannot_open_witness :
  fs_wf fs_conf ∧
  (∃ c, node_at fs_conf (parent ["conf.json"; "x.json"]) = Some (File c)) ∧
  write (codec := ref_codec) ["conf.json"; "x.json"] (VInt 1) 4 false true fs_conf
    = (fs_conf,
       Raise (PyExn JSONFileError
                "Error writing to file /conf.json/x.json: [Errno 20] Not a directory: '/conf.json/x.json'")).
Proof.
  assert (∃ c, node_at fs_conf (parent ["conf.json"; "x.json"]) = Some (File c)) as Hpar
    by (eexists; vm_compute; reflexivity).
  split; [exact fs_conf_wf|]. split; [exact Hpar|].
  rewrite (write_cannot_open (codec := ref_codec) fs_conf ["conf.json"; "x.json"]
             (VInt 1) 4 false true fs_conf_wf (or_intror (or_introl Hpar))).
  f_equal.
Defined.


Lemma update_unserializable_loses_file_witness :
  fs_wf fs_conf ∧
  node_at fs_conf ["conf.json"] = Some (File (quoted "{'a': 1, 'b': 2}")) ∧
  update (codec := ref_codec) ["conf.json"] [("c", VObject "set")] false fs_conf
    = (<[ ["conf.json"] := File (quoted "{
    'a': 1,
    'b': 2,
    'c': ") ]> fs_conf,
       Raise (PyExn JSONError
                "Data is not JSON-serializable: Object of type set is not JSON serializable")).
Proof.
  split; [exact fs_conf_wf|]. split; [vm_compute; reflexivity|].
  apply (update_unserializable_loses_file (codec := ref_codec) fs_conf ["conf.json"]
           [("c", VObject "set")] false (quoted "{'a': 1, 'b': 2}")
           (VDict [("a", VInt 1); ("b", VInt 2)]) _
           (PyExn TypeError "Object of type set is not JSON serializable"));
    [exact fs_conf_wf | vm_compute; reflexivity ..].
Defined.

Lemma delete_then_gone_witness :
  delete ["list.json"] fs_conf = (base.delete ["list.json"] fs_conf, Return true) ∧
  exists_ (codec := ref_codec) ["list.json"] (base.delete ["list.json"] fs_conf)
    = (base.delete ["list.json"] fs_conf, Return false) ∧
  delete ["list.json"] (base.delete ["list.json"] fs_conf)
    = (base.delete ["list.json"] fs_conf, Return false).
Proof.
  assert (delete ["list.json"] fs_conf = (base.delete ["list.json"] fs_conf, Return true))
    as Hd by (apply (delete_file fs_conf ["list.json"] "[1, 2, 3]"); vm_compute; reflexivity).
  split; [exact Hd|].
  destruct (delete_then_gone (codec := ref_codec) fs_conf _ ["list.json"] Hd)
    as (_ & _ & _ & Hexists & _ & Hagain).
  split; [exact Hexists | exact Hagain].
Defined.

Lemma write_then_delete_restores_witness :
  node_at fs_data ["data"; "c.json"] = None ∧
  node_at fs_data (parent ["data"; "c.json"]) = Some Dir ∧
  ∃ fs1, write (codec := ref_codec) ["data"; "c.json"] (VList [VInt 1]) 4 false true fs_data
           = (fs1, Return tt) ∧
         delete ["data"; "c.json"] fs1 = (fs_data, Return true).
Proof.
  assert (node_at fs_data ["data"; "c.json"] = None) as Hp by (vm_compute; reflexivity).
  assert (node_at fs_data (parent ["data"; "c.json"]) = Some Dir) as Hpar
    by (vm_compute; reflexivity).
  split; [exact Hp|]. split; [exact Hpar|].
  pose proof (write_returns_at (codec := ref_codec) fs_data ["data"; "c.json"]
                (VList [VInt 1]) 4 false) as Hw.
  eexists. split; [apply Hw; vm_compute; reflexivity|].
  refine (proj2 (write_then_delete_restores (codec := ref_codec) fs_data _
                   ["data"; "c.json"] (VList [VInt 1]) 4 false true (Return tt) Hp Hpar _)).
  apply Hw; vm_compute; reflexivity.
Defined.

Lemma create_result_witness :
  ∃ fs1, create (codec := ref_codec) ["new.json"] VNone false 4 false fs_conf
           = (fs1, Return true) ∧
         node_at fs1 ["new.json"] = Some (File "{}").
Proof.
  pose proof (create_at (codec := ref_codec) fs_conf ["new.json"] VNone false 4 false)
    as Hc.
  eexists. split.
  - apply Hc; [left|..]; vm_compute; reflexivity.
  - refine (eq_trans
              (proj1 (create_result (codec := ref_codec) fs_conf _ ["new.json"] VNone false
                        4 false true _)) _).
    + apply Hc; [left|..]; vm_compute; reflexivity.
    + vm_compute; reflexivity.
Defined.

Lemma update_is_idempotent_witness :
  let merged := [("a", VInt 1); ("b", VInt 3); ("c", VInt 4)] in
  let text := quoted "{
    'a': 1,
    'b': 3,
    'c': 4
}" in
  fs_wf fs_conf ∧
  json_dump (JsonCodec := ref_codec) (VDict merged) 4 false = (text, None) ∧
  json_load (JsonCodec := ref_codec) text = Return (VDict merged) ∧
  update (codec := ref_codec) ["conf.json"] [("b", VInt 3); ("c", VInt 4)] false fs_conf
    = (<[ ["conf.json"] := File text ]> fs_conf, Return merged) ∧
  update (codec := ref_codec) ["conf.json"] [("b", VInt 3); ("c", VInt 4)] false
      (<[ ["conf.json"] := File text ]> fs_conf)
    = (<[ ["conf.json"] := File text ]> fs_conf, Return merged).
Proof.
  intros merged text. split; [exact fs_conf_wf|].
  split; [vm_compute; reflexivity|]. split; [vm_compute; reflexivity|].
  destruct (update_is_idempotent (codec := ref_codec) fs_conf ["conf.json"]
              [("b", VInt 3); ("c", VInt 4)] false false (quoted "{'a': 1, 'b': 2}")
              (VDict [("a", VInt 1); ("b", VInt 2)]) text fs_conf_wf)
    as (Hfirst & _ & Hsecond);
    [vm_compute; reflexivity | vm_compute; reflexivity | exact dict_ok_example
    | vm_compute; reflexivity | vm_compute; reflexivity |].
  split; [exact Hfirst | exact Hsecond].
Defined.

Lemma auto_flat_keys_witness :
  node_at fs_data ["data"] = Some Dir ∧
  ∃ result,
    auto (codec := ref_codec) ["data"] false false fs_data = (fs_data, Return result) ∧
    (∃ v, json_load (JsonCodec := ref_codec) (quoted "{'x':1}") = Return v ∧
          dict_get "a" result = Some v) ∧
    dict_get "b" result = None.
Proof.
  assert (node_at fs_data ["data"] = Some Dir) as Hd by (vm_compute; reflexivity).
  split; [exact Hd|].
  assert (auto (codec := ref_codec) ["data"] false false fs_data
          = (fs_data,
             Return (fold_left (loaded (codec := ref_codec) fs_data)
                       (json_files fs_data ["data"] false) []))) as Ha.
  { apply (auto_returns_at (codec := ref_codec) fs_data ["data"] false false Hd).
    apply (bool_decide_unpack _). vm_compute. exact I. }
  eexists. split; [exact Ha|]. split.
  - pose proof (auto_flat_keys (codec := ref_codec) fs_data fs_data ["data"] false _ "a"
                  Hd Ha ltac:(discriminate) ltac:(discriminate)) as Hk.
    assert (node_at fs_data (["data"] ++ ["a" +:+ ".json"])
            = Some (File (quoted "{'x':1}"))) as Hn by (vm_compute; reflexivity).
    rewrite Hn in Hk. exact Hk.
  - pose proof (auto_flat_keys (codec := ref_codec) fs_data fs_data ["data"] false _ "b"
                  Hd Ha ltac:(discriminate) ltac:(discriminate)) as Hk.
    assert (node_at fs_data (["data"] ++ ["b" +:+ ".json"]) = None) as Hn
      by (vm_compute; reflexivity).
    rewrite Hn in Hk. exact Hk.
Defined.

Lemma auto_on_regular_file_witness :
  node_at fs_conf ["conf.json"] = Some (File (quoted "{'a': 1, 'b': 2}")) ∧
  auto (codec := ref_codec) ["conf.json"] true false fs_conf = (fs_conf, Return []).
Proof.
  split; [vm_compute; reflexivity|].
  apply (auto_on_regular_file (codec := ref_codec) fs_conf ["conf.json"] true false
           (quoted "{'a': 1, 'b': 2}")).
  vm_compute; reflexivity.
Defined.

Lemma auto_create_then_auto_witness :
  fs_wf fs_data ∧
  node_at fs_data ["cache"; "json"] = None ∧
  ∃ fs1, auto (codec := ref_codec) ["cache"; "json"] true true fs_data = (fs1, Return []) ∧
         auto (codec := ref_codec) ["cache"; "json"] true false fs1 = (fs1, Return []).
Proof.
  assert (node_at fs_data ["cache"; "json"] = None) as Hd by (vm_compute; reflexivity).
  split; [exact fs_data_wf|]. split; [exact Hd|].
  assert (auto (codec := ref_codec) ["cache"; "json"] true true fs_data
          = ((Path_mkdir_parents ["cache"; "json"] fs_data).1, Return [])) as Ha
    by (apply (auto_creates_at (codec := ref_codec)); vm_compute; reflexivity).
  eexists. split; [exact Ha|].
  exact (proj2 (auto_create_then_auto (codec := ref_codec) fs_data _ ["cache"; "json"] true
                  [] fs_data_wf Hd Ha) true false).
Defined.

Lemma auto_loads_written_file_witness :
  let v := VDict [("n", VList [VInt 1; VInt 2])] in
  json_load (JsonCodec := ref_codec) (json_dump (JsonCodec := ref_codec) v 4 false).1
    = Return v ∧
  ∃ fs1 result,
    write (codec := ref_codec) (["data"] ++ ["c" +:+ ".json"]) v 4 false true fs_data
      = (fs1, Return tt) ∧
    auto (codec := ref_codec) ["data"] false false fs1 = (fs1, Return result) ∧
    dict_get "c" result = Some v.
Proof.
  intros v.
  assert (json_load (JsonCodec := ref_codec) (json_dump (JsonCodec := ref_codec) v 4 false).1
          = Return v) as Hback by (vm_compute; reflexivity).
  split; [exact Hback|].
  set (p := ["data"] ++ ["c" +:+ ".json"]).
  set (fs1 := <[p := File (json_dump (JsonCodec := ref_codec) v 4 false).1]>
                (with_parents fs_data p)).
  assert (write (codec := ref_codec) p v 4 false true fs_data = (fs1, Return tt)) as Hw
    by (apply (write_returns_at (codec := ref_codec)); vm_compute; reflexivity).
  assert (auto (codec := ref_codec) ["data"] false false fs1
          = (fs1,
             Return (fold_left (loaded (codec := ref_codec) fs1)
                       (json_files fs1 ["data"] false) []))) as Ha.
  { apply (auto_returns_at (codec := ref_codec) fs1 ["data"] false false).
    - vm_compute; reflexivity.
    - apply (bool_decide_unpack _). vm_compute. exact I. }
  exists fs1. eexists. split; [exact Hw|]. split; [exact Ha|].
  refine (proj2 (auto_loads_written_file (codec := ref_codec) fs_data fs1 fs1 ["data"] "c" v
                   4 false true false (json_dump (JsonCodec := ref_codec) v 4 false).1 _
                   ltac:(discriminate) ltac:(discriminate) _ Hback Hw Ha)).
  vm_compute; reflexivity.
Defined.
